(** * jill/filters.py: release-name filters and [generate_info]

    A shallow embedding of [src/jill/filters.py].  Python values are
    a small dynamically typed universe ([value]); exceptions are an
    error monad ([result]); dictionaries are [gmap]s.

    Scope of the string model: a [str] is a [string] of ASCII
    characters.  [\d] is [0-9], [\w] is [A-Za-z0-9_], and the case
    conversions act on [a-z]/[A-Z] only.  Assertions are enabled
    (the interpreter runs without [-O]). *)

From Stdlib Require Import ZArith Ascii String.
From stdpp Require Import base option list countable strings gmap.

Local Open Scope string_scope.

(** ** Python values *)

#[warnings="-register-all"] Inductive value : Type :=
| VStr (s : string)
| VInt (n : Z)
| VTuple (items : list value).

Fixpoint value_to_tree (v : value) : gen_tree (string + Z) :=
  match v with
  | VStr s => GenLeaf (inl s)
  | VInt n => GenLeaf (inr n)
  | VTuple items => GenNode 0 (map value_to_tree items)
  end.

Fixpoint tree_to_value (t : gen_tree (string + Z)) : value :=
  match t with
  | GenLeaf (inl s) => VStr s
  | GenLeaf (inr n) => VInt n
  | GenNode _ ts => VTuple (map tree_to_value ts)
  end.

Fixpoint value_to_tree_inv (v : value) : tree_to_value (value_to_tree v) = v :=
  match v with
  | VStr s => eq_refl
  | VInt n => eq_refl
  | VTuple items =>
      f_equal VTuple
        (eq_trans (map_map value_to_tree tree_to_value items)
           ((fix go (l : list value) : map (λ x, tree_to_value (value_to_tree x)) l = l :=
               match l with
               | [] => eq_refl
               | x :: l' => f_equal2 cons (value_to_tree_inv x) (go l')
               end) items))
  end.

#[global] Instance value_eq_dec : EqDecision value.
Proof.
  intros x y.
  destruct (decide (value_to_tree x = value_to_tree y)) as [E|N].
  - left. rewrite <- (value_to_tree_inv x), <- (value_to_tree_inv y).
    now rewrite E.
  - right. intros ->. now apply N.
Defined.

#[global] Instance value_countable : Countable value :=
  inj_countable' value_to_tree tree_to_value value_to_tree_inv.

(** ** Exceptions *)

Inductive exn : Type :=
| AssertionError
| TypeError
| AttributeError
| IndexError.

Inductive result (A : Type) : Type :=
| Ok (a : A)
| Raise (e : exn).

Arguments Ok {A} a.
Arguments Raise {A} e.

#[global] Instance result_ret : MRet result := λ A a, Ok a.
#[global] Instance result_bind : MBind result :=
  λ A B k m, match m with Ok a => k a | Raise e => Raise e end.

(** Attribute lookup of a [str] method on a value: [int] and [tuple]
    have none of [lstrip], [split], [capitalize], [upper]. *)
Definition as_str (v : value) : result string :=
  match v with
  | VStr s => Ok s
  | _ => Raise AttributeError
  end.

(** [l[0]] *)
Definition item0 {A : Type} (l : list A) : result A :=
  match l with
  | x :: _ => Ok x
  | [] => Raise IndexError
  end.

(** ** [str] methods *)

Definition ascii_in (c : ascii) (chars : string) : bool :=
  existsb (Ascii.eqb c) (list_ascii_of_string chars).

Definition is_lower (c : ascii) : bool :=
  let n := N_of_ascii c in ((97 <=? n) && (n <=? 122))%N.

Definition is_upper (c : ascii) : bool :=
  let n := N_of_ascii c in ((65 <=? n) && (n <=? 90))%N.

Definition is_digit (c : ascii) : bool :=
  let n := N_of_ascii c in ((48 <=? n) && (n <=? 57))%N.

Definition is_word (c : ascii) : bool :=
  is_lower c || is_upper c || is_digit c || Ascii.eqb c "_".

Definition to_upper (c : ascii) : ascii :=
  if is_lower c then ascii_of_N (N_of_ascii c - 32) else c.

Definition to_lower (c : ascii) : ascii :=
  if is_upper c then ascii_of_N (N_of_ascii c + 32) else c.

Fixpoint str_map (f : ascii → ascii) (s : string) : string :=
  match s with
  | EmptyString => EmptyString
  | String c s' => String (f c) (str_map f s')
  end.

(** [s.upper()] *)
Definition py_upper (s : string) : string := str_map to_upper s.

(** [s.capitalize()]: first character upper-cased, the rest lower-cased. *)
Definition py_capitalize (s : string) : string :=
  match s with
  | EmptyString => EmptyString
  | String c s' => String (to_upper c) (str_map to_lower s')
  end.

(** [s.lstrip(chars)] *)
Fixpoint py_lstrip (chars : string) (s : string) : string :=
  match s with
  | EmptyString => EmptyString
  | String c s' => if ascii_in c chars then py_lstrip chars s' else s
  end.

(** [s.split(sep)] for a one-character separator, as at both call sites. *)
Fixpoint py_split (sep : ascii) (s : string) : list string :=
  match s with
  | EmptyString => [EmptyString]
  | String c s' =>
      if Ascii.eqb c sep then EmptyString :: py_split sep s'
      else match py_split sep s' with
           | w :: ws => String c w :: ws
           | [] => [String c EmptyString]
           end
  end.

(** [sep.join(l)] *)
Fixpoint py_join (sep : string) (l : list string) : string :=
  match l with
  | [] => EmptyString
  | [x] => x
  | x :: l' => x +:+ sep +:+ py_join sep l'
  end.

(** ** Regular expressions ([re]) *)

(** Character sets of the pattern language: a literal, [\d], [\w]. *)
Inductive cset : Type :=
| CLit (c : ascii)
| CDigit
| CWord.

Definition cset_mem (cs : cset) (c : ascii) : bool :=
  match cs with
  | CLit c' => Ascii.eqb c c'
  | CDigit => is_digit c
  | CWord => is_word c
  end.

Inductive regex : Type :=
| Void
| Eps
| Sym (cs : cset)
| Cat (r1 r2 : regex)
| Alt (r1 r2 : regex)
| Star (r : regex).

(** [r+], [r?] and groups (capturing does not change what matches). *)
Definition Plus (r : regex) : regex := Cat r (Star r).
Definition Opt (r : regex) : regex := Alt r Eps.
Definition Group (name : string) (r : regex) : regex := r.

(** The language of a pattern. *)
Inductive matches : regex → string → Prop :=
| M_Eps : matches Eps ""
| M_Sym cs c : cset_mem cs c = true → matches (Sym cs) (String c "")
| M_Cat r1 r2 s1 s2 :
    matches r1 s1 → matches r2 s2 → matches (Cat r1 r2) (s1 +:+ s2)
| M_AltL r1 r2 s : matches r1 s → matches (Alt r1 r2) s
| M_AltR r1 r2 s : matches r2 s → matches (Alt r1 r2) s
| M_StarNil r : matches (Star r) ""
| M_StarCons r s1 s2 :
    matches r s1 → matches (Star r) s2 → matches (Star r) (s1 +:+ s2).

Fixpoint nullable (r : regex) : bool :=
  match r with
  | Void => false
  | Eps => true
  | Sym _ => false
  | Cat r1 r2 => nullable r1 && nullable r2
  | Alt r1 r2 => nullable r1 || nullable r2
  | Star _ => true
  end.

Fixpoint deriv (c : ascii) (r : regex) : regex :=
  match r with
  | Void => Void
  | Eps => Void
  | Sym cs => if cset_mem cs c then Eps else Void
  | Cat r1 r2 =>
      if nullable r1 then Alt (Cat (deriv c r1) r2) (deriv c r2)
      else Cat (deriv c r1) r2
  | Alt r1 r2 => Alt (deriv c r1) (deriv c r2)
  | Star r' => Cat (deriv c r') (Star r')
  end.

(** [bool(pattern.match(s))]: some prefix of [s], starting at position 0,
    is in the language of the pattern. *)
Fixpoint re_match (r : regex) (s : string) : bool :=
  nullable r ||
  match s with
  | EmptyString => false
  | String c s' => re_match (deriv c r) s'
  end.

(** ** Module constants *)

(** [v(?P<major>\d+)\.(?P<minor>\d+)\.(?P<patch>\d+)(-(?P<status>\w+))?] *)
Definition VERSION_REGEX : regex :=
  Cat (Sym (CLit "v"))
  (Cat (Group "major" (Plus (Sym CDigit)))
  (Cat (Sym (CLit "."))
  (Cat (Group "minor" (Plus (Sym CDigit)))
  (Cat (Sym (CLit "."))
  (Cat (Group "patch" (Plus (Sym CDigit)))
       (Opt (Cat (Sym (CLit "-")) (Group "status" (Plus (Sym CWord)))))))))).

Definition SPECIAL_VERSION_NAMES : list value :=
  [VStr "latest"; VStr "nightly"; VStr "stable"].

Definition rule_sys : list (value * value) :=
  [(VStr "windows", VStr "winnt")].
Definition rules_os : list (value * value) :=
  [(VStr "windows", VStr "win")].
Definition rules_arch : list (value * value) :=
  [(VStr "i686", VStr "x86");
   (VStr "x86_64", VStr "x64");
   (VStr "ARMv8", VStr "aarch64");
   (VStr "ARMv7", VStr "armv7l")].
Definition rules_osarch : list (value * value) :=
  [(VStr "win-i686", VStr "win32");
   (VStr "win-x86_64", VStr "win64");
   (VStr "macos-x86_64", VStr "mac64");
   (VStr "linux-ARMv7", VStr "linux-armv7l");
   (VStr "linux-ARMv8", VStr "linux-aarch64")].
Definition rules_extension : list (value * value) :=
  [(VStr "windows", VStr "exe");
   (VStr "linux", VStr "tar.gz");
   (VStr "macos", VStr "dmg");
   (VStr "freebsd", VStr "tar.gz")].
Definition rules_bit : list (value * value) :=
  [(VStr "i686", VInt 32);
   (VStr "x86_64", VInt 64);
   (VStr "ARMv8", VInt 64);
   (VStr "ARMv7", VInt 32)].

Definition VALID_SYSTEM : list value :=
  [VStr "windows"; VStr "linux"; VStr "freebsd"; VStr "macos"].
Definition VALID_OS : list value :=
  [VStr "win"; VStr "linux"; VStr "freebsd"; VStr "macos"].
(** [list(rules_arch.keys())], [list(rules_arch.values())] *)
Definition VALID_ARCHITECTURE : list value := rules_arch.*1.
Definition VALID_ARCH : list value := rules_arch.*2.

(** [x in l] on a list: some element equals [x]. *)
Definition py_in (x : value) (l : list value) : bool := bool_decide (x ∈ l).

(** ** Validators *)

Definition identity (args : list value) : result value :=
  match args with
  | [x] => Ok x
  | _ => Ok (VTuple args)
  end.

Definition no_validate (args : list value) : result bool := Ok true.

Definition is_system (system : value) : bool := py_in system VALID_SYSTEM.
Definition is_os (os : value) : bool := py_in os VALID_OS.
Definition is_architecture (arch : value) : bool := py_in arch VALID_ARCHITECTURE.
Definition is_arch (arch : value) : bool := py_in arch VALID_ARCH.

(** [VERSION_REGEX.match] raises [TypeError] on anything but a [str]. *)
Definition is_version (version : value) : result bool :=
  if py_in version SPECIAL_VERSION_NAMES then Ok true
  else match version with
       | VStr s => Ok (re_match VERSION_REGEX s)
       | _ => Raise TypeError
       end.

Definition is_valid_release (version system architecture : value) : bool :=
  if bool_decide (system = VStr "windows")
     && negb (py_in architecture [VStr "i686"; VStr "x86_64"]) then false
  else if bool_decide (system = VStr "macos")
     && negb (py_in architecture [VStr "x86_64"]) then false
  else if bool_decide (system = VStr "freebsd")
     && negb (py_in architecture [VStr "x86_64"]) then false
  else if bool_decide (version = VStr "latest")
     && (negb (py_in architecture [VStr "i686"; VStr "x86_64"])
         || negb (py_in system [VStr "windows"; VStr "macos"; VStr "linux"]))
  then false
  else true.

(** ** [NameFilter] *)

Record NameFilter : Type := mkNameFilter {
  nf_f : list value → result value;
  nf_rules : gmap value value;
  nf_validate : list value → result bool
}.

(** The mapping built by a dict literal with the given items. *)
Definition dict (items : list (value * value)) : gmap value value :=
  list_to_map items.

(** [NameFilter.__init__]; [rules if rules else {}] turns both [None] and
    an empty table into the empty table.  Call sites that leave [f] or
    [validate] out pass the defaults [identity] and [no_validate]. *)
Definition NameFilter_init (f : list value → result value)
    (rules : option (gmap value value))
    (validate : list value → result bool) : NameFilter :=
  {| nf_f := f;
     nf_rules := match rules with
                 | Some r => if bool_decide (r = ∅) then ∅ else r
                 | None => ∅
                 end;
     nf_validate := validate |}.

(** [NameFilter.__call__]: the assertion, then
    [self.rules.get(self.f( *args), self.f( *args))] with both arguments
    evaluated left to right. *)
Definition call (self : NameFilter) (args : list value) : result value :=
  ok ← nf_validate self args;
  if ok : bool then
    key ← nf_f self args;
    dflt ← nf_f self args;
    mret (default dflt (nf_rules self !! key))
  else Raise AssertionError.

(** A function of one, respectively two, positional parameters applied
    to an argument tuple: any other count is a [TypeError]. *)
Definition lambda1 {A : Type} (body : value → result A) (args : list value) : result A :=
  match args with
  | [x] => body x
  | _ => Raise TypeError
  end.

Definition lambda2 {A : Type} (body : value → value → result A) (args : list value) : result A :=
  match args with
  | [x; y] => body x y
  | _ => Raise TypeError
  end.

(** [v.capitalize()], [v.upper()] on a value *)
Definition capitalize (v : value) : result value :=
  s ← as_str v; mret (VStr (py_capitalize s)).
Definition upper (v : value) : result value :=
  s ← as_str v; mret (VStr (py_upper s)).

(** ** The filters *)

Definition f_major_version : NameFilter :=
  NameFilter_init
    (lambda1 (λ x, s ← as_str x; w ← item0 (py_split "." (py_lstrip "v" s)); mret (VStr w)))
    None
    (lambda1 is_version).
Definition f_vmajor_version : NameFilter :=
  NameFilter_init
    (lambda1 (λ x, s ← as_str x; w ← item0 (py_split "." s); mret (VStr w)))
    None no_validate.
Definition f_Vmajor_version : NameFilter :=
  NameFilter_init
    (lambda1 (λ x, r ← call f_vmajor_version [x]; capitalize r))
    None no_validate.
Definition f_minor_version : NameFilter :=
  NameFilter_init
    (lambda1 (λ x, s ← as_str x;
                   mret (VStr (py_join "." (take 2 (py_split "." (py_lstrip "v" s)))))))
    None
    (lambda1 is_version).
Definition f_vminor_version : NameFilter :=
  NameFilter_init
    (lambda1 (λ x, s ← as_str x; mret (VStr (py_join "." (take 2 (py_split "." s))))))
    None no_validate.
Definition f_Vminor_version : NameFilter :=
  NameFilter_init
    (lambda1 (λ x, r ← call f_vminor_version [x]; capitalize r))
    None no_validate.
Definition f_patch_version : NameFilter :=
  NameFilter_init
    (lambda1 (λ x, s ← as_str x; w ← item0 (py_split "-" (py_lstrip "v" s)); mret (VStr w)))
    None
    (lambda1 is_version).
Definition f_vpatch_version : NameFilter :=
  NameFilter_init
    (lambda1 (λ x, s ← as_str x; w ← item0 (py_split "-" s); mret (VStr w)))
    None no_validate.
Definition f_Vpatch_version : NameFilter :=
  NameFilter_init
    (lambda1 (λ x, r ← call f_vpatch_version [x]; capitalize r))
    None no_validate.

Definition f_version : NameFilter :=
  NameFilter_init identity None (lambda1 is_version).

Definition f_system : NameFilter :=
  NameFilter_init identity None (lambda1 (λ x, Ok (is_system x))).
Definition f_System : NameFilter :=
  NameFilter_init (lambda1 (λ x, r ← call f_system [x]; capitalize r)) None no_validate.
Definition f_SYSTEM : NameFilter :=
  NameFilter_init (lambda1 (λ x, r ← call f_system [x]; upper r)) None no_validate.

Definition f_sys : NameFilter :=
  NameFilter_init identity (Some (dict rule_sys)) (lambda1 (λ x, Ok (is_system x))).
Definition f_Sys : NameFilter :=
  NameFilter_init (lambda1 (λ x, r ← call f_sys [x]; capitalize r)) None no_validate.
Definition f_SYS : NameFilter :=
  NameFilter_init (lambda1 (λ x, r ← call f_sys [x]; upper r)) None no_validate.

Definition f_os : NameFilter :=
  NameFilter_init identity (Some (dict rules_os)) (lambda1 (λ x, Ok (is_system x))).
Definition f_Os : NameFilter :=
  NameFilter_init (lambda1 (λ x, r ← call f_os [x]; capitalize r)) None no_validate.
Definition f_OS : NameFilter :=
  NameFilter_init (lambda1 (λ x, r ← call f_os [x]; upper r)) None no_validate.

Definition f_arch : NameFilter :=
  NameFilter_init identity (Some (dict rules_arch)) (lambda1 (λ x, Ok (is_architecture x))).
Definition f_Arch : NameFilter :=
  NameFilter_init (lambda1 (λ x, r ← call f_arch [x]; capitalize r)) None no_validate.
Definition f_ARCH : NameFilter :=
  NameFilter_init (lambda1 (λ x, r ← call f_arch [x]; upper r)) None no_validate.

(** The f-string [f"{os}-{arch}"] is modelled on [str] arguments, the
    only ones that pass the filter's own validator, which runs first;
    the rendering of other values is outside the model ([TypeError]). *)
Definition f_osarch : NameFilter :=
  NameFilter_init
    (lambda2 (λ os arch,
       match os, arch with
       | VStr o, VStr a => Ok (VStr (o +:+ "-" +:+ a))
       | _, _ => Raise TypeError
       end))
    (Some (dict rules_osarch))
    (lambda2 (λ os arch, Ok (is_os os && is_architecture arch))).
Definition f_Osarch : NameFilter :=
  NameFilter_init
    (lambda2 (λ os arch, r ← call f_osarch [os; arch]; capitalize r))
    None no_validate.
Definition f_OSarch : NameFilter :=
  NameFilter_init
    (lambda2 (λ os arch, r ← call f_osarch [os; arch]; upper r))
    None no_validate.

Definition f_bit : NameFilter :=
  NameFilter_init identity (Some (dict rules_bit)) (lambda1 (λ x, Ok (is_architecture x))).

Definition f_extension : NameFilter :=
  NameFilter_init identity (Some (dict rules_extension)) (lambda1 (λ x, Ok (is_system x))).

(** ** [generate_info] *)

(** Names of the positional parameters: a keyword argument of one of
    these names cannot reach [**kwargs]; passing it next to the positional
    arguments is a [TypeError] at the call. *)
Definition PARAMETERS : list string := ["plain_version"; "system"; "architecture"].

Definition binds_parameter (kwargs : gmap string value) : bool :=
  existsb (λ p, bool_decide (is_Some (kwargs !! p))) PARAMETERS.

(** [d.update(other)]: every item of [other] is stored in [d]. *)
Definition dict_update (d other : gmap string value) : gmap string value :=
  other ∪ d.

Definition generate_info (plain_version system architecture : string)
    (kwargs : gmap string value) : result (gmap string value) :=
  if binds_parameter kwargs then Raise TypeError else
  os ← call f_os [VStr system];
  arch ← call f_arch [VStr architecture];
  c_System ← call f_System [VStr system];
  c_SYSTEM ← call f_SYSTEM [VStr system];
  c_sys ← call f_sys [VStr system];
  c_Sys ← call f_Sys [VStr system];
  c_SYS ← call f_SYS [VStr system];
  c_Os ← call f_Os [VStr system];
  c_OS ← call f_OS [VStr system];
  c_Arch ← call f_Arch [VStr architecture];
  c_ARCH ← call f_ARCH [VStr architecture];
  c_osarch ← call f_osarch [os; VStr architecture];
  c_Osarch ← call f_Osarch [os; VStr architecture];
  c_OSarch ← call f_OSarch [os; VStr architecture];
  c_bit ← call f_bit [VStr architecture];
  c_extension ← call f_extension [VStr system];
  c_version ← call f_version [VStr plain_version];
  c_major_version ← call f_major_version [VStr plain_version];
  c_vmajor_version ← call f_vmajor_version [VStr plain_version];
  c_minor_version ← call f_minor_version [VStr plain_version];
  c_vminor_version ← call f_vminor_version [VStr plain_version];
  c_patch_version ← call f_patch_version [VStr plain_version];
  c_vpatch_version ← call f_vpatch_version [VStr plain_version];
  let configs : gmap string value := list_to_map [
    ("system", VStr system);
    ("System", c_System);
    ("SYSTEM", c_SYSTEM);
    ("sys", c_sys);
    ("Sys", c_Sys);
    ("SYS", c_SYS);
    ("os", os);
    ("Os", c_Os);
    ("OS", c_OS);
    ("architecture", VStr architecture);
    ("Arch", c_Arch);
    ("arch", arch);
    ("ARCH", c_ARCH);
    ("osarch", c_osarch);
    ("Osarch", c_Osarch);
    ("OSarch", c_OSarch);
    ("bit", c_bit);
    ("extension", c_extension);
    ("version", c_version);
    ("major_version", c_major_version);
    ("vmajor_version", c_vmajor_version);
    ("minor_version", c_minor_version);
    ("vminor_version", c_vminor_version);
    ("patch_version", c_patch_version);
    ("vpatch_version", c_vpatch_version)
  ] in
  mret (dict_update kwargs configs).

(** ** Notions used in the statements *)

(** The bodies of the six version [lambda]s on a [str], with the head of
    the split taken totally. *)
Definition major_of (x : string) : string := hd "" (py_split "." (py_lstrip "v" x)).
Definition vmajor_of (x : string) : string := hd "" (py_split "." x).
Definition minor_of (x : string) : string :=
  py_join "." (take 2 (py_split "." (py_lstrip "v" x))).
Definition vminor_of (x : string) : string := py_join "." (take 2 (py_split "." x)).
Definition patch_of (x : string) : string := hd "" (py_split "-" (py_lstrip "v" x)).
Definition vpatch_of (x : string) : string := hd "" (py_split "-" x).

(** The keys of the [configs] literal, in source order. *)
Definition DERIVED_FIELDS : list string :=
  ["system"; "System"; "SYSTEM"; "sys"; "Sys"; "SYS"; "os"; "Os"; "OS";
   "architecture"; "Arch"; "arch"; "ARCH"; "osarch"; "Osarch"; "OSarch";
   "bit"; "extension"; "version"; "major_version"; "vmajor_version";
   "minor_version"; "vminor_version"; "patch_version"; "vpatch_version"].

(** The release exclusions, in words: a Windows release needs i686 or
    x86_64, macOS and FreeBSD need x86_64, and "latest" needs i686 or
    x86_64 on Windows, macOS or Linux. *)
Definition release_excluded (version system architecture : string) : Prop :=
  (system = "windows" ∧ architecture ∉ ["i686"; "x86_64"])
  ∨ (system = "macos" ∧ architecture ≠ "x86_64")
  ∨ (system = "freebsd" ∧ architecture ≠ "x86_64")
  ∨ (version = "latest"
     ∧ (architecture ∉ ["i686"; "x86_64"] ∨ system ∉ ["windows"; "macos"; "linux"])).

(** The values stored under the keys [ks] in the result of a call. *)
Definition fields_of (r : result (gmap string value)) (ks : list string) :
    result (list (option value)) :=
  m ← r; mret ((λ k, m !! k) <$> ks).

(** ** Notions used in the further statements *)

(** Every character of [s] satisfies [p]. *)
Fixpoint str_all (p : ascii → bool) (s : string) : bool :=
  match s with
  | EmptyString => true
  | String c s' => p c && str_all p s'
  end.

(** A non-empty run of decimal digits, as [\d+] matches it in full. *)
Definition digits (s : string) : bool :=
  negb (String.eqb s "") && str_all is_digit s.

(** [c] is not the separator [sep]. *)
Definition not_char (sep : ascii) (c : ascii) : bool := negb (Ascii.eqb c sep).

(** [p] is a prefix of [s]. *)
Definition str_prefix (p s : string) : Prop := ∃ rest, s = p +:+ rest.

(** The keys of [configs] that are computed from [system] and
    [architecture] alone. *)
Definition PLATFORM_FIELDS : list string :=
  ["system"; "System"; "SYSTEM"; "sys"; "Sys"; "SYS"; "os"; "Os"; "OS";
   "architecture"; "Arch"; "arch"; "ARCH"; "osarch"; "Osarch"; "OSarch";
   "bit"; "extension"].

(** * Properties *)

(** ** The error monad *)

Lemma bind_Ok {A B : Type} (a : A) (k : A → result B) : (Ok a ≫= k) = k a.
Proof. reflexivity. Qed.

Lemma bind_Raise {A B : Type} (e : exn) (k : A → result B) :
  (Raise e ≫= k) = Raise e.
Proof. reflexivity. Qed.

(** ** The pattern matcher against the language of the pattern *)

Section Regex.

Lemma str_app_nil_inv (s1 s2 : string) : s1 +:+ s2 = "" → s1 = "" ∧ s2 = "".
Proof. destruct s1; simpl; [tauto | discriminate]. Qed.

Lemma str_app_cons_inv (s1 s2 : string) (c : ascii) (s : string) :
  s1 +:+ s2 = String c s →
  (s1 = "" ∧ s2 = String c s) ∨ (∃ s1', s1 = String c s1' ∧ s = s1' +:+ s2).
Proof.
  destruct s1 as [|a s1]; simpl; intros E.
  - now left.
  - right. injection E as -> <-. now exists s1.
Qed.

Lemma nullable_matches (r : regex) : nullable r = true ↔ matches r "".
Proof.
  induction r as [| |cs|r1 IH1 r2 IH2|r1 IH1 r2 IH2|r IH]; simpl.
  - split; [discriminate | inversion 1].
  - split; [constructor | reflexivity].
  - split; [discriminate | inversion 1].
  - rewrite andb_true_iff, IH1, IH2. split.
    + intros [H1 H2]. exact (M_Cat _ _ "" "" H1 H2).
    + intros H. inversion H as [| |? ? s1 s2 H1 H2| | | |]; subst.
      match goal with E : _ +:+ _ = "" |- _ =>
        apply str_app_nil_inv in E as [-> ->] end.
      now split.
  - rewrite orb_true_iff, IH1, IH2. split.
    + intros [H|H]; [now apply M_AltL | now apply M_AltR].
    + inversion 1; subst; [now left | now right].
  - split; [constructor | reflexivity].
Qed.

Lemma deriv_sound (c : ascii) (r : regex) :
  ∀ s, matches (deriv c r) s → matches r (String c s).
Proof.
  induction r as [| |cs|r1 IH1 r2 IH2|r1 IH1 r2 IH2|r IH]; simpl; intros s H.
  - inversion H.
  - inversion H.
  - destruct (cset_mem cs c) eqn:E; inversion H; subst. now constructor.
  - destruct (nullable r1) eqn:N.
    + inversion H as [| | |? ? ? H'|? ? ? H'| |]; subst.
      * inversion H' as [| |? ? s1 s2 H1 H2| | | |]; subst.
        exact (M_Cat _ _ (String c s1) s2 (IH1 _ H1) H2).
      * apply nullable_matches in N.
        exact (M_Cat _ _ "" (String c s) N (IH2 _ H')).
    + inversion H as [| |? ? s1 s2 H1 H2| | | |]; subst.
      exact (M_Cat _ _ (String c s1) s2 (IH1 _ H1) H2).
  - inversion H; subst; [apply M_AltL | apply M_AltR]; auto.
  - inversion H as [| |? ? s1 s2 H1 H2| | | |]; subst.
    exact (M_StarCons _ (String c s1) s2 (IH _ H1) H2).
Qed.

Lemma deriv_complete (r : regex) (x : string) :
  matches r x → ∀ c s, x = String c s → matches (deriv c r) s.
Proof.
  induction 1 as [|cs a Ha|r1 r2 s1 s2 H1 IH1 H2 IH2|r1 r2 s0 H0 IH0
                  |r1 r2 s0 H0 IH0|r|r s1 s2 H1 IH1 H2 IH2];
    intros c s E; simpl.
  - discriminate.
  - injection E as -> <-. rewrite Ha. constructor.
  - apply str_app_cons_inv in E as [[-> ->]|(s1' & -> & ->)].
    + apply nullable_matches in H1 as ->. apply M_AltR. now apply IH2.
    + specialize (IH1 c s1' eq_refl).
      destruct (nullable r1); [apply M_AltL|]; now constructor.
  - apply M_AltL. now apply IH0.
  - apply M_AltR. now apply IH0.
  - discriminate.
  - apply str_app_cons_inv in E as [[-> ->]|(s1' & -> & ->)].
    + now apply IH2.
    + constructor; [now apply IH1 | assumption].
Qed.

Lemma deriv_matches (c : ascii) (r : regex) (s : string) :
  matches (deriv c r) s ↔ matches r (String c s).
Proof.
  split; [apply deriv_sound | intros H; now apply (deriv_complete r _ H)].
Qed.

(** [re_match] accepts exactly the strings with a prefix in the language. *)
Lemma re_match_prefix (r : regex) (s : string) :
  re_match r s = true ↔ ∃ p q, s = p +:+ q ∧ matches r p.
Proof.
  revert r. induction s as [|c s IH]; intros r; simpl.
  - rewrite orb_false_r, nullable_matches. split.
    + intros H. now exists "", "".
    + intros (p & q & E & H). symmetry in E.
      apply str_app_nil_inv in E as [-> _]. exact H.
  - rewrite orb_true_iff, nullable_matches, IH. split.
    + intros [H|(p & q & -> & H)].
      * now exists "", (String c s).
      * exists (String c p), q. split; [reflexivity | now apply deriv_matches].
    + intros (p & q & E & H). symmetry in E.
      apply str_app_cons_inv in E as [[-> _]|(p' & -> & ->)].
      * now left.
      * right. exists p', q. split; [reflexivity | now apply deriv_matches].
Qed.

End Regex.

(** ** Validators *)

Lemma py_in_true (x : value) (l : list value) : py_in x l = true ↔ x ∈ l.
Proof. apply bool_decide_eq_true. Qed.

Lemma py_in_false (x : value) (l : list value) : py_in x l = false ↔ x ∉ l.
Proof. apply bool_decide_eq_false. Qed.

Lemma is_system_true (s : string) :
  is_system (VStr s) = true ↔ s ∈ ["windows"; "linux"; "freebsd"; "macos"].
Proof.
  unfold is_system, VALID_SYSTEM. rewrite py_in_true, !elem_of_cons, !elem_of_nil.
  intuition congruence.
Qed.

Lemma is_architecture_true (s : string) :
  is_architecture (VStr s) = true ↔ s ∈ ["i686"; "x86_64"; "ARMv8"; "ARMv7"].
Proof.
  unfold is_architecture, VALID_ARCHITECTURE, rules_arch; cbn [fmap list_fmap fst].
  rewrite py_in_true, !elem_of_cons, !elem_of_nil. intuition congruence.
Qed.

Lemma is_system_false (s : string) :
  is_system (VStr s) = false ↔ s ∉ ["windows"; "linux"; "freebsd"; "macos"].
Proof. rewrite <- is_system_true. now destruct (is_system (VStr s)). Qed.

Lemma is_architecture_false (s : string) :
  is_architecture (VStr s) = false ↔ s ∉ ["i686"; "x86_64"; "ARMv8"; "ARMv7"].
Proof. rewrite <- is_architecture_true. now destruct (is_architecture (VStr s)). Qed.

(** On a [str], [is_version] returns a boolean. *)
Lemma is_version_str (s : string) :
  is_version (VStr s) =
  Ok (bool_decide (s ∈ ["latest"; "nightly"; "stable"]) || re_match VERSION_REGEX s).
Proof.
  unfold is_version, SPECIAL_VERSION_NAMES.
  destruct (py_in _ _) eqn:E.
  - apply py_in_true in E. rewrite bool_decide_eq_true_2; [reflexivity|].
    rewrite !elem_of_cons, !elem_of_nil in *. intuition congruence.
  - apply py_in_false in E. rewrite bool_decide_eq_false_2; [reflexivity|].
    rewrite !elem_of_cons, !elem_of_nil in *. intuition congruence.
Qed.

(** ** Calling a filter *)

Lemma call_Ok (self : NameFilter) (args : list value) (key : value) :
  nf_validate self args = Ok true → nf_f self args = Ok key →
  call self args = Ok (default key (nf_rules self !! key)).
Proof. unfold call. intros -> ->. reflexivity. Qed.

Lemma call_assert (self : NameFilter) (args : list value) :
  nf_validate self args = Ok false → call self args = Raise AssertionError.
Proof. unfold call. intros ->. reflexivity. Qed.

Lemma call_lambda1_Ok (f : value → result value) validate (x key : value) :
  validate [x] = Ok true → f x = Ok key →
  call (NameFilter_init (lambda1 f) None validate) [x] = Ok key.
Proof.
  intros Hv Hf. rewrite (call_Ok _ _ key); [reflexivity | exact Hv | exact Hf].
Qed.

(** [split] never returns an empty list, so [[0]] never raises. *)
Lemma py_split_cons (sep : ascii) (s : string) : ∃ w ws, py_split sep s = w :: ws.
Proof.
  induction s as [|c s (w & ws & IH)]; simpl; [eauto|].
  destruct (Ascii.eqb c sep); [eauto|]. rewrite IH. eauto.
Qed.

Lemma item0_split (sep : ascii) (s : string) :
  item0 (py_split sep s) = Ok (hd "" (py_split sep s)).
Proof. destruct (py_split_cons sep s) as (w & ws & ->). reflexivity. Qed.

(** ** The version filters on an arbitrary version string *)

Section VersionFilters.
Variable pv : string.

Lemma call_f_vmajor_version : call f_vmajor_version [VStr pv] = Ok (VStr (vmajor_of pv)).
Proof. apply call_lambda1_Ok; [reflexivity|]. cbn. now rewrite item0_split. Qed.

Lemma call_f_vminor_version : call f_vminor_version [VStr pv] = Ok (VStr (vminor_of pv)).
Proof. apply call_lambda1_Ok; reflexivity. Qed.

Lemma call_f_vpatch_version : call f_vpatch_version [VStr pv] = Ok (VStr (vpatch_of pv)).
Proof. apply call_lambda1_Ok; [reflexivity|]. cbn. now rewrite item0_split. Qed.

Section Accepted.
Hypothesis Hv : is_version (VStr pv) = Ok true.

Lemma call_f_version : call f_version [VStr pv] = Ok (VStr pv).
Proof. rewrite (call_Ok _ _ (VStr pv)); [reflexivity | exact Hv | reflexivity]. Qed.

Lemma call_f_major_version : call f_major_version [VStr pv] = Ok (VStr (major_of pv)).
Proof. apply call_lambda1_Ok; [exact Hv|]. cbn. now rewrite item0_split. Qed.

Lemma call_f_minor_version : call f_minor_version [VStr pv] = Ok (VStr (minor_of pv)).
Proof. apply call_lambda1_Ok; [exact Hv | reflexivity]. Qed.

Lemma call_f_patch_version : call f_patch_version [VStr pv] = Ok (VStr (patch_of pv)).
Proof. apply call_lambda1_Ok; [exact Hv|]. cbn. now rewrite item0_split. Qed.
End Accepted.

Section Rejected.
Hypothesis Hv : is_version (VStr pv) = Ok false.

Lemma call_f_version_rejected : call f_version [VStr pv] = Raise AssertionError.
Proof. apply call_assert. exact Hv. Qed.

Lemma call_f_major_version_rejected :
  call f_major_version [VStr pv] = Raise AssertionError.
Proof. apply call_assert. exact Hv. Qed.

Lemma call_f_minor_version_rejected :
  call f_minor_version [VStr pv] = Raise AssertionError.
Proof. apply call_assert. exact Hv. Qed.

Lemma call_f_patch_version_rejected :
  call f_patch_version [VStr pv] = Raise AssertionError.
Proof. apply call_assert. exact Hv. Qed.
End Rejected.
End VersionFilters.

(** ** [generate_info] *)

(** Evaluate the next filter call whose arguments are literals. *)
Ltac step_call :=
  match goal with
  | |- context [call ?f ?args ≫= _] =>
      let r := eval vm_compute in (call f args) in
      replace (call f args) with r by (vm_compute; reflexivity);
      first [rewrite bind_Ok | rewrite bind_Raise]; cbv beta
  end.

Ltac each_system H :=
  apply is_system_true in H; rewrite !elem_of_cons, elem_of_nil in H;
  destruct H as [->|[->|[->|[->|[]]]]].

Ltac each_architecture H :=
  apply is_architecture_true in H; rewrite !elem_of_cons, elem_of_nil in H;
  destruct H as [->|[->|[->|[->|[]]]]].

(** The extra fields only enter at the final [update]. *)
Lemma generate_info_kwargs (pv sys arch : string) (kwargs : gmap string value) :
  generate_info pv sys arch kwargs =
  if binds_parameter kwargs then Raise TypeError
  else m0 ← generate_info pv sys arch ∅; mret (dict_update kwargs m0).
Proof.
  unfold generate_info. destruct (binds_parameter kwargs); [reflexivity|].
  change (binds_parameter ∅) with false. cbv iota.
  repeat match goal with
         | |- context [mbind _ (call ?f ?a)] =>
             destruct (call f a); rewrite ?bind_Ok, ?bind_Raise; cbv beta;
             try reflexivity
         end.
Qed.

(** On accepted inputs every filter returns, and the result without extra
    fields has exactly the keys of [configs]. *)
Lemma generate_info_returns (pv sys arch : string) :
  is_system (VStr sys) = true → is_architecture (VStr arch) = true →
  is_version (VStr pv) = Ok true →
  ∃ m0, generate_info pv sys arch ∅ = Ok m0
        ∧ dom m0 = list_to_set DERIVED_FIELDS
        ∧ m0 !! "system" = Some (VStr sys)
        ∧ m0 !! "architecture" = Some (VStr arch)
        ∧ m0 !! "version" = Some (VStr pv)
        ∧ m0 !! "major_version" = Some (VStr (major_of pv))
        ∧ m0 !! "vmajor_version" = Some (VStr (vmajor_of pv))
        ∧ m0 !! "minor_version" = Some (VStr (minor_of pv))
        ∧ m0 !! "vminor_version" = Some (VStr (vminor_of pv))
        ∧ m0 !! "patch_version" = Some (VStr (patch_of pv))
        ∧ m0 !! "vpatch_version" = Some (VStr (vpatch_of pv)).
Proof.
  intros Hs Ha Hv. unfold generate_info.
  change (binds_parameter ∅) with false. cbv iota.
  rewrite (call_f_version pv Hv), (call_f_major_version pv Hv),
    (call_f_minor_version pv Hv), (call_f_patch_version pv Hv),
    call_f_vmajor_version, call_f_vminor_version, call_f_vpatch_version.
  each_system Hs; each_architecture Ha; repeat step_call; rewrite !bind_Ok;
    (eexists; split; [reflexivity|]);
    unfold dict_update; rewrite (right_id_L ∅ (∪));
    (split; [rewrite dom_list_to_map_L; reflexivity|]).
  all: generalize (major_of pv), (vmajor_of pv), (minor_of pv), (vminor_of pv),
         (patch_of pv), (vpatch_of pv); intros; repeat split; vm_compute; reflexivity.
Qed.

Lemma call_f_os_returns (sys : string) :
  is_system (VStr sys) = true → ∃ os, call f_os [VStr sys] = Ok os.
Proof.
  intros Hs. eexists. apply call_Ok; [|reflexivity].
  cbn [f_os NameFilter_init nf_validate lambda1]. now rewrite Hs.
Qed.

(** Any rejected input stops the call at the first assertion it reaches. *)
Lemma generate_info_raises (pv sys arch : string) :
  is_system (VStr sys) = false ∨ is_architecture (VStr arch) = false
  ∨ is_version (VStr pv) = Ok false →
  generate_info pv sys arch ∅ = Raise AssertionError.
Proof.
  intros H. unfold generate_info.
  change (binds_parameter ∅) with false. cbv iota.
  destruct (is_system (VStr sys)) eqn:Hs.
  - destruct (is_architecture (VStr arch)) eqn:Ha.
    + destruct H as [H|[H|Hv]]; [discriminate H | discriminate H |].
      rewrite (call_f_version_rejected pv Hv), (call_f_major_version_rejected pv Hv),
        (call_f_minor_version_rejected pv Hv), (call_f_patch_version_rejected pv Hv),
        call_f_vmajor_version, call_f_vminor_version, call_f_vpatch_version.
      each_system Hs; each_architecture Ha; repeat step_call; reflexivity.
    + destruct (call_f_os_returns sys Hs) as [os ->].
      rewrite (call_assert f_arch [VStr arch]); [reflexivity|].
      cbn [f_arch NameFilter_init nf_validate lambda1]. now rewrite Ha.
  - rewrite (call_assert f_os [VStr sys]); [reflexivity|].
    cbn [f_os NameFilter_init nf_validate lambda1]. now rewrite Hs.
Qed.

Lemma dict_update_lookup (d other : gmap string value) (k : string) :
  dict_update d other !! k =
  match other !! k with Some v => Some v | None => d !! k end.
Proof.
  unfold dict_update. rewrite lookup_union.
  destruct (other !! k), (d !! k); reflexivity.
Qed.

Lemma nf_rules_init f (rules : option (gmap value value)) validate :
  nf_rules (NameFilter_init f rules validate) = default ∅ rules.
Proof.
  destruct rules as [r|]; cbn; [|reflexivity].
  case_bool_decide; congruence.
Qed.

Lemma py_in_str (s : string) (l : list string) :
  py_in (VStr s) (VStr <$> l) = bool_decide (s ∈ l).
Proof.
  unfold py_in. apply bool_decide_ext. rewrite list_elem_of_fmap. split.
  - intros (y & E & Hy). now injection E as ->.
  - intros Hs. now exists s.
Qed.

Lemma bool_decide_VStr (s t : string) :
  bool_decide (VStr s = VStr t) = bool_decide (s = t).
Proof. apply bool_decide_ext. split; congruence. Qed.

(** Decide a closed decidable proposition by evaluation. *)
Ltac solve_decide := apply (bool_decide_unpack _); vm_compute; exact I.

(** * The claims *)

Lemma fields_of_Ok (r : result (gmap string value)) (ks : list string)
    (vs : list (option value)) :
  fields_of r ks = Ok vs → ∃ m, r = Ok m ∧ (λ k, m !! k) <$> ks = vs.
Proof.
  unfold fields_of. destruct r as [m|e]; [|discriminate].
  intros [= <-]. now exists m.
Qed.

Lemma cons_eq_inv {A : Type} (x y : A) (l l' : list A) :
  x :: l = y :: l' → x = y ∧ l = l'.
Proof. intros [= -> ->]. now split. Qed.

(** Run a call of [generate_info] on literal arguments, reading the keys
    [ks], which hold the values [vs]. *)
Ltac run_generate_info ks vs :=
  match goal with
  | |- ∃ m, generate_info ?pv ?sys ?arch ?kw = Ok m ∧ _ =>
      let H := fresh "H" in
      let E := fresh "E" in
      let m := fresh "m" in
      assert (H : fields_of (generate_info pv sys arch kw) ks = Ok vs)
        by (vm_compute; reflexivity);
      apply fields_of_Ok in H as (m & E & H);
      exists m; split; [exact E|];
      cbn [fmap list_fmap] in H;
      repeat (apply cons_eq_inv in H as [? H])
  end.

(** ** Extra fields *)

Lemma generate_info_extra_field_overridden :
  ({["os" := VStr "mine"]} : gmap string value) !! "os" = Some (VStr "mine")
  ∧ ∃ m, generate_info "v1.2.3" "linux" "x86_64" {["os" := VStr "mine"]} = Ok m
         ∧ m !! "os" = Some (VStr "linux")
         ∧ m !! "os" ≠ Some (VStr "mine").
Proof.
  split; [reflexivity|].
  run_generate_info ["os"] [Some (VStr "linux")].
  split; [assumption | congruence].
Qed.

(** C1 (as amended).  For accepted inputs and extra fields that bind no
    positional parameter, [generate_info] returns a mapping, never a
    conflict error; under every derived field name it holds the derived
    value (the one computed without extra fields), also when the caller
    supplied a field of that name; under every other name it holds what
    the caller supplied. *)
Theorem generate_info_derived_fields_win
    (pv sys arch : string) (kwargs : gmap string value) :
  is_system (VStr sys) = true → is_architecture (VStr arch) = true →
  is_version (VStr pv) = Ok true → binds_parameter kwargs = false →
  ∃ m m0, generate_info pv sys arch kwargs = Ok m
          ∧ generate_info pv sys arch ∅ = Ok m0
          ∧ (∀ k, k ∈ DERIVED_FIELDS → is_Some (m0 !! k) ∧ m !! k = m0 !! k)
          ∧ (∀ k, k ∉ DERIVED_FIELDS → m !! k = kwargs !! k).
Proof.
  intros Hs Ha Hv Hk.
  destruct (generate_info_returns pv sys arch Hs Ha Hv) as (m0 & E0 & Hdom & _).
  exists (dict_update kwargs m0), m0.
  rewrite generate_info_kwargs, Hk, E0. split; [reflexivity|]. split; [reflexivity|].
  assert (Hin : ∀ k, k ∈ DERIVED_FIELDS ↔ is_Some (m0 !! k)).
  { intros k. now rewrite <- elem_of_dom, Hdom, elem_of_list_to_set. }
  split; intros k Hkey; rewrite dict_update_lookup.
  - apply Hin in Hkey as Hsome. split; [exact Hsome|].
    destruct Hsome as [v ->]. reflexivity.
  - destruct (m0 !! k) eqn:E; [|reflexivity].
    exfalso. apply Hkey, Hin. now rewrite E.
Qed.

Lemma generate_info_derived_fields_win_witness :
  is_system (VStr "linux") = true ∧ is_architecture (VStr "x86_64") = true
  ∧ is_version (VStr "v1.2.3") = Ok true
  ∧ binds_parameter {["os" := VStr "mine"]} = false
  ∧ ∃ m m0, generate_info "v1.2.3" "linux" "x86_64" {["os" := VStr "mine"]} = Ok m
            ∧ generate_info "v1.2.3" "linux" "x86_64" ∅ = Ok m0
            ∧ (∀ k, k ∈ DERIVED_FIELDS → is_Some (m0 !! k) ∧ m !! k = m0 !! k)
            ∧ (∀ k, k ∉ DERIVED_FIELDS → m !! k = ({["os" := VStr "mine"]} : gmap string value) !! k).
Proof.
  repeat (split; [vm_compute; reflexivity|]).
  apply (generate_info_derived_fields_win "v1.2.3" "linux" "x86_64"
           {["os" := VStr "mine"]}); vm_compute; reflexivity.
Defined.

(** ** Capitalised version fields *)

(** C2.  At [generate_info("v1.2.3", "linux", "x86_64")] the returned
    mapping has none of the keys [Vmajor_version], [Vminor_version],
    [Vpatch_version], although the three filters of those names are
    defined and compute the capitalised v-preserved forms. *)
Theorem generate_info_lacks_capitalized_version_fields :
  (∃ m, generate_info "v1.2.3" "linux" "x86_64" ∅ = Ok m
        ∧ m !! "Vmajor_version" = None
        ∧ m !! "Vminor_version" = None
        ∧ m !! "Vpatch_version" = None
        ∧ m !! "vmajor_version" = Some (VStr "v1")
        ∧ m !! "vminor_version" = Some (VStr "v1.2")
        ∧ m !! "vpatch_version" = Some (VStr "v1.2.3"))
  ∧ call f_Vmajor_version [VStr "v1.2.3"] = Ok (VStr "V1")
  ∧ call f_Vminor_version [VStr "v1.2.3"] = Ok (VStr "V1.2")
  ∧ call f_Vpatch_version [VStr "v1.2.3"] = Ok (VStr "V1.2.3").
Proof.
  split.
  - run_generate_info
      ["Vmajor_version"; "Vminor_version"; "Vpatch_version";
       "vmajor_version"; "vminor_version"; "vpatch_version"]
      [@None value; None; None;
       Some (VStr "v1"); Some (VStr "v1.2"); Some (VStr "v1.2.3")].
    repeat split; assumption.
  - repeat split; vm_compute; reflexivity.
Qed.

(** ** Worked examples *)

(** C3.  The two documented calls return the documented values. *)
Theorem generate_info_examples :
  (∃ m, generate_info "v1.2.3-beta" "windows" "x86_64" ∅ = Ok m
        ∧ m !! "major_version" = Some (VStr "1")
        ∧ m !! "minor_version" = Some (VStr "1.2")
        ∧ m !! "patch_version" = Some (VStr "1.2.3")
        ∧ m !! "vmajor_version" = Some (VStr "v1")
        ∧ m !! "sys" = Some (VStr "winnt")
        ∧ m !! "os" = Some (VStr "win")
        ∧ m !! "arch" = Some (VStr "x64")
        ∧ m !! "osarch" = Some (VStr "win64")
        ∧ m !! "bit" = Some (VInt 64)
        ∧ m !! "extension" = Some (VStr "exe"))
  ∧ (∃ m, generate_info "v1.2.3" "linux" "ARMv8" ∅ = Ok m
          ∧ m !! "osarch" = Some (VStr "linux-aarch64")
          ∧ m !! "bit" = Some (VInt 64)
          ∧ m !! "extension" = Some (VStr "tar.gz")).
Proof.
  split.
  - run_generate_info
      ["major_version"; "minor_version"; "patch_version"; "vmajor_version";
       "sys"; "os"; "arch"; "osarch"; "bit"; "extension"]
      [Some (VStr "1"); Some (VStr "1.2"); Some (VStr "1.2.3"); Some (VStr "v1");
       Some (VStr "winnt"); Some (VStr "win"); Some (VStr "x64");
       Some (VStr "win64"); Some (VInt 64); Some (VStr "exe")].
    repeat split; assumption.
  - run_generate_info ["osarch"; "bit"; "extension"]
      [Some (VStr "linux-aarch64"); Some (VInt 64); Some (VStr "tar.gz")].
    repeat split; assumption.
Qed.

(** ** Release compatibility *)

Lemma is_valid_release_str (version system architecture : string) :
  is_valid_release (VStr version) (VStr system) (VStr architecture) =
  if bool_decide (system = "windows")
     && negb (bool_decide (architecture ∈ ["i686"; "x86_64"])) then false
  else if bool_decide (system = "macos")
     && negb (bool_decide (architecture ∈ ["x86_64"])) then false
  else if bool_decide (system = "freebsd")
     && negb (bool_decide (architecture ∈ ["x86_64"])) then false
  else if bool_decide (version = "latest")
     && (negb (bool_decide (architecture ∈ ["i686"; "x86_64"]))
         || negb (bool_decide (system ∈ ["windows"; "macos"; "linux"])))
  then false
  else true.
Proof.
  unfold is_valid_release. rewrite !bool_decide_VStr.
  now rewrite <- !py_in_str.
Qed.

Lemma if_false_iff (b c : bool) :
  (if b then false else c) = false ↔ b = true ∨ c = false.
Proof. destruct b; intuition discriminate. Qed.

(** C4.  [is_valid_release] is a total boolean function of three strings;
    it is false exactly on the excluded releases and true on all others,
    and false on the two documented examples. *)
Theorem is_valid_release_spec :
  (∀ version system architecture : string,
     (is_valid_release (VStr version) (VStr system) (VStr architecture) = false
      ↔ release_excluded version system architecture)
     ∧ (is_valid_release (VStr version) (VStr system) (VStr architecture) = true
        ↔ ¬ release_excluded version system architecture))
  ∧ is_valid_release (VStr "v1.0.0") (VStr "macos") (VStr "ARMv7") = false
  ∧ is_valid_release (VStr "latest") (VStr "linux") (VStr "ARMv7") = false.
Proof.
  split; [|split; vm_compute; reflexivity].
  intros version system architecture.
  assert (F : is_valid_release (VStr version) (VStr system) (VStr architecture) = false
              ↔ release_excluded version system architecture).
  { rewrite is_valid_release_str. unfold release_excluded.
    rewrite !if_false_iff, !andb_true_iff, orb_true_iff, !negb_true_iff,
      !bool_decide_eq_true, !bool_decide_eq_false, !list_elem_of_singleton.
    intuition discriminate. }
  split; [exact F|]. rewrite <- F.
  destruct (is_valid_release _ _ _); split; congruence.
Qed.

(** ** Version strings *)

(** C5.  On a string, [is_version] returns a boolean; it is true exactly
    for the three special names and for the strings of which some prefix,
    starting at position 0, is in the language of [VERSION_REGEX] (so
    trailing text is accepted). *)
Theorem is_version_spec :
  (∀ v : string,
     (is_version (VStr v) = Ok true ∨ is_version (VStr v) = Ok false)
     ∧ (is_version (VStr v) = Ok true
        ↔ v ∈ ["latest"; "nightly"; "stable"]
          ∨ ∃ p q, v = p +:+ q ∧ matches VERSION_REGEX p))
  ∧ is_version (VStr "v1.2.3xyz") = Ok true
  ∧ is_version (VStr "v1.2.3") = Ok true
  ∧ is_version (VStr "v1.2.3-beta") = Ok true
  ∧ is_version (VStr "latest") = Ok true
  ∧ is_version (VStr "1.2.3") = Ok false
  ∧ is_version (VStr "v1.2") = Ok false.
Proof.
  split; [|repeat split; vm_compute; reflexivity].
  intros v. rewrite is_version_str. split.
  - destruct (_ || _); [now left | now right].
  - rewrite <- re_match_prefix. split.
    + intros [= H]. apply orb_true_iff in H as [H|H]; [left|now right].
      now apply bool_decide_eq_true in H.
    + intros [H|H]; f_equal; apply orb_true_iff; [left|now right].
      now apply bool_decide_eq_true.
Qed.

(** ** Accepted inputs *)

(** C6.  For every system and architecture of the two enumerations, every
    version accepted by [is_version] and all extra fields that bind no
    positional parameter, [generate_info] returns a mapping (no assertion
    fires, nothing is raised) that has all 25 keys of [configs]; its keys
    are those 25 and the names of the extra fields. *)
Theorem generate_info_total (pv sys arch : string) (kwargs : gmap string value) :
  sys ∈ ["windows"; "linux"; "freebsd"; "macos"] →
  arch ∈ ["i686"; "x86_64"; "ARMv8"; "ARMv7"] →
  is_version (VStr pv) = Ok true →
  binds_parameter kwargs = false →
  ∃ m, generate_info pv sys arch kwargs = Ok m
       ∧ (∀ k, k ∈ DERIVED_FIELDS → is_Some (m !! k))
       ∧ dom m = list_to_set DERIVED_FIELDS ∪ dom kwargs
       ∧ length DERIVED_FIELDS = 25
       ∧ NoDup DERIVED_FIELDS.
Proof.
  intros Hs Ha Hv Hk.
  apply is_system_true in Hs. apply is_architecture_true in Ha.
  destruct (generate_info_returns pv sys arch Hs Ha Hv) as (m0 & E0 & Hdom & _).
  exists (dict_update kwargs m0).
  rewrite generate_info_kwargs, Hk, E0. split; [reflexivity|].
  split; [|split; [|split; [reflexivity | solve_decide]]].
  - intros k Hin. rewrite dict_update_lookup.
    assert (Hsome : is_Some (m0 !! k)).
    { now rewrite <- elem_of_dom, Hdom, elem_of_list_to_set. }
    destruct Hsome as [v ->]. now exists v.
  - unfold dict_update. now rewrite dom_union_L, Hdom.
Qed.

Lemma generate_info_total_witness :
  "freebsd" ∈ ["windows"; "linux"; "freebsd"; "macos"]
  ∧ "ARMv7" ∈ ["i686"; "x86_64"; "ARMv8"; "ARMv7"]
  ∧ is_version (VStr "v0.7.0-rc1") = Ok true
  ∧ binds_parameter {["mirror" := VStr "cn"]} = false
  ∧ ∃ m, generate_info "v0.7.0-rc1" "freebsd" "ARMv7" {["mirror" := VStr "cn"]} = Ok m
         ∧ (∀ k, k ∈ DERIVED_FIELDS → is_Some (m !! k))
         ∧ dom m = list_to_set DERIVED_FIELDS ∪ dom ({["mirror" := VStr "cn"]} : gmap string value)
         ∧ length DERIVED_FIELDS = 25
         ∧ NoDup DERIVED_FIELDS.
Proof.
  split; [solve_decide|]. split; [solve_decide|].
  split; [vm_compute; reflexivity|]. split; [vm_compute; reflexivity|].
  apply (generate_info_total "v0.7.0-rc1" "freebsd" "ARMv7" {["mirror" := VStr "cn"]});
    [solve_decide | solve_decide | vm_compute; reflexivity | vm_compute; reflexivity].
Defined.

(** ** Rejected inputs *)

Lemma generate_info_error_is_anonymous :
  generate_info "v1.2.3" "solaris" "x86_64" ∅ = Raise AssertionError
  ∧ generate_info "v1.2.3" "linux" "sparc" ∅ = Raise AssertionError
  ∧ generate_info "1.2.3" "linux" "x86_64" ∅ = Raise AssertionError
  ∧ ¬ ∃ failing_input : result (gmap string value) → string,
        failing_input (generate_info "v1.2.3" "solaris" "x86_64" ∅) = "system"
        ∧ failing_input (generate_info "v1.2.3" "linux" "sparc" ∅) = "architecture".
Proof.
  assert (E1 : generate_info "v1.2.3" "solaris" "x86_64" ∅ = Raise AssertionError)
    by (vm_compute; reflexivity).
  assert (E2 : generate_info "v1.2.3" "linux" "sparc" ∅ = Raise AssertionError)
    by (vm_compute; reflexivity).
  assert (E3 : generate_info "1.2.3" "linux" "x86_64" ∅ = Raise AssertionError)
    by (vm_compute; reflexivity).
  repeat split; try assumption.
  rewrite E1, E2. intros (f & H1 & H2). rewrite H1 in H2. discriminate H2.
Qed.

(** C7 (as amended).  When the system is outside its enumeration, or the
    architecture is outside its enumeration, or the version is rejected by
    [is_version], [generate_info] raises a bare [AssertionError], the same
    whichever input failed, and returns no mapping. *)
Theorem generate_info_rejects (pv sys arch : string) (kwargs : gmap string value) :
  binds_parameter kwargs = false →
  sys ∉ ["windows"; "linux"; "freebsd"; "macos"]
  ∨ arch ∉ ["i686"; "x86_64"; "ARMv8"; "ARMv7"]
  ∨ is_version (VStr pv) = Ok false →
  generate_info pv sys arch kwargs = Raise AssertionError
  ∧ ∀ m, generate_info pv sys arch kwargs ≠ Ok m.
Proof.
  intros Hk H.
  assert (E : generate_info pv sys arch kwargs = Raise AssertionError).
  { rewrite generate_info_kwargs, Hk, generate_info_raises; [reflexivity|].
    rewrite is_system_false, is_architecture_false. exact H. }
  split; [exact E|]. intros m. rewrite E. discriminate.
Qed.

Lemma generate_info_rejects_witness :
  binds_parameter ∅ = false
  ∧ ("solaris" ∉ ["windows"; "linux"; "freebsd"; "macos"]
     ∨ "x86_64" ∉ ["i686"; "x86_64"; "ARMv8"; "ARMv7"]
     ∨ is_version (VStr "v1.2.3") = Ok false)
  ∧ generate_info "v1.2.3" "solaris" "x86_64" ∅ = Raise AssertionError
  ∧ ∀ m, generate_info "v1.2.3" "solaris" "x86_64" ∅ ≠ Ok m.
Proof.
  assert (H : "solaris" ∉ ["windows"; "linux"; "freebsd"; "macos"]) by solve_decide.
  split; [vm_compute; reflexivity|]. split; [now left|].
  apply (generate_info_rejects "v1.2.3" "solaris" "x86_64" ∅);
    [vm_compute; reflexivity | now left].
Defined.

(** ** The filter abstraction *)

(** C8.  A filter built from a shape function [f], an optional table
    [rules] and a predicate [validate], called on arguments that
    [validate] accepts and for which [f] returns [key], returns [rules[key]]
    when [key] is a key of the table and [key] itself otherwise.  The
    default shape function returns a lone argument unchanged and any other
    number of arguments as a tuple; the default predicate accepts all. *)
Theorem NameFilter_call_spec
    (f : list value → result value) (rules : option (gmap value value))
    (validate : list value → result bool) (args : list value) (key : value) :
  validate args = Ok true → f args = Ok key →
  (∀ v, default ∅ rules !! key = Some v →
        call (NameFilter_init f rules validate) args = Ok v)
  ∧ (default ∅ rules !! key = None →
     call (NameFilter_init f rules validate) args = Ok key)
  ∧ (∀ x, identity [x] = Ok x)
  ∧ (∀ xs, length xs ≠ 1 → identity xs = Ok (VTuple xs))
  ∧ (∀ xs, no_validate xs = Ok true).
Proof.
  intros Hv Hf.
  assert (E : call (NameFilter_init f rules validate) args
              = Ok (default key (default ∅ rules !! key))).
  { rewrite <- (nf_rules_init f rules validate). now apply call_Ok. }
  repeat split.
  - intros v Hl. now rewrite E, Hl.
  - intros Hl. now rewrite E, Hl.
  - intros [|x [|y xs]] Hlen; [reflexivity | now contradiction Hlen | reflexivity].
Qed.

Lemma NameFilter_call_spec_witness :
  lambda1 (λ x, Ok (is_system x)) [VStr "windows"] = Ok true
  ∧ identity [VStr "windows"] = Ok (VStr "windows")
  ∧ (∀ v, default ∅ (Some (dict rules_os)) !! VStr "windows" = Some v →
          call f_os [VStr "windows"] = Ok v)
  ∧ (default ∅ (Some (dict rules_os)) !! VStr "windows" = None →
     call f_os [VStr "windows"] = Ok (VStr "windows"))
  ∧ (∀ x, identity [x] = Ok x)
  ∧ (∀ xs, length xs ≠ 1 → identity xs = Ok (VTuple xs))
  ∧ (∀ xs, no_validate xs = Ok true).
Proof.
  split; [vm_compute; reflexivity|]. split; [reflexivity|].
  apply (NameFilter_call_spec identity (Some (dict rules_os))
           (lambda1 (λ x, Ok (is_system x))) [VStr "windows"] (VStr "windows"));
    [vm_compute; reflexivity | reflexivity].
Defined.

(** ** Releases outside the enumerations *)

(** C9.  [is_valid_release] checks no membership: with a version other
    than "latest" and a system that is none of "windows", "macos",
    "freebsd", it is true for every architecture string. *)
Theorem is_valid_release_unchecked (version system architecture : string) :
  version ≠ "latest" → system ≠ "windows" → system ≠ "macos" →
  system ≠ "freebsd" →
  is_valid_release (VStr version) (VStr system) (VStr architecture) = true.
Proof.
  intros Hl Hw Hm Hf. rewrite is_valid_release_str.
  rewrite (bool_decide_eq_false_2 _ Hw), (bool_decide_eq_false_2 _ Hm),
    (bool_decide_eq_false_2 _ Hf), (bool_decide_eq_false_2 _ Hl).
  reflexivity.
Qed.

Lemma is_valid_release_unchecked_witness :
  "v1.0.0" ≠ "latest" ∧ "solaris" ≠ "windows" ∧ "solaris" ≠ "macos"
  ∧ "solaris" ≠ "freebsd"
  ∧ is_valid_release (VStr "v1.0.0") (VStr "solaris") (VStr "sparc") = true.
Proof.
  repeat (split; [solve_decide|]).
  apply (is_valid_release_unchecked "v1.0.0" "solaris" "sparc"); solve_decide.
Defined.

(** ** Special version names *)

(** C10.  For each special version name, a valid system and architecture
    and extra fields that bind no positional parameter, the fields
    [version], [major_version], [minor_version], [patch_version],
    [vmajor_version], [vminor_version] and [vpatch_version] of the result
    all hold the special name itself. *)
Theorem generate_info_special_version
    (name sys arch : string) (kwargs : gmap string value) :
  name ∈ ["latest"; "nightly"; "stable"] →
  sys ∈ ["windows"; "linux"; "freebsd"; "macos"] →
  arch ∈ ["i686"; "x86_64"; "ARMv8"; "ARMv7"] →
  binds_parameter kwargs = false →
  ∃ m, generate_info name sys arch kwargs = Ok m
       ∧ ∀ k, k ∈ ["version"; "major_version"; "minor_version"; "patch_version";
                   "vmajor_version"; "vminor_version"; "vpatch_version"] →
              m !! k = Some (VStr name).
Proof.
  intros Hn Hs Ha Hk.
  apply is_system_true in Hs. apply is_architecture_true in Ha.
  assert (Hv : is_version (VStr name) = Ok true
               ∧ major_of name = name ∧ vmajor_of name = name
               ∧ minor_of name = name ∧ vminor_of name = name
               ∧ patch_of name = name ∧ vpatch_of name = name).
  { rewrite !elem_of_cons, elem_of_nil in Hn.
    destruct Hn as [->|[->|[->|[]]]]; repeat split; vm_compute; reflexivity. }
  destruct Hv as (Hv & E1 & E2 & E3 & E4 & E5 & E6).
  destruct (generate_info_returns name sys arch Hs Ha Hv)
    as (m0 & E0 & _ & _ & _ & L0 & L1 & L2 & L3 & L4 & L5 & L6).
  rewrite E1 in L1. rewrite E2 in L2. rewrite E3 in L3. rewrite E4 in L4.
  rewrite E5 in L5. rewrite E6 in L6.
  exists (dict_update kwargs m0).
  rewrite generate_info_kwargs, Hk, E0. split; [reflexivity|].
  intros k Hin. rewrite dict_update_lookup.
  rewrite !elem_of_cons, elem_of_nil in Hin.
  destruct Hin as [->|[->|[->|[->|[->|[->|[->|[]]]]]]]];
    match goal with H : m0 !! ?k = _ |- context [m0 !! ?k] => now rewrite H end.
Qed.

Lemma generate_info_special_version_witness :
  "nightly" ∈ ["latest"; "nightly"; "stable"]
  ∧ "macos" ∈ ["windows"; "linux"; "freebsd"; "macos"]
  ∧ "x86_64" ∈ ["i686"; "x86_64"; "ARMv8"; "ARMv7"]
  ∧ binds_parameter ∅ = false
  ∧ ∃ m, generate_info "nightly" "macos" "x86_64" ∅ = Ok m
         ∧ ∀ k, k ∈ ["version"; "major_version"; "minor_version"; "patch_version";
                     "vmajor_version"; "vminor_version"; "vpatch_version"] →
                m !! k = Some (VStr "nightly").
Proof.
  repeat (split; [solve_decide|]).
  apply (generate_info_special_version "nightly" "macos" "x86_64" ∅); solve_decide.
Defined.

(** * Further properties *)

(** ** Strings *)

Lemma str_app_cons (c : ascii) (s1 s2 : string) :
  String c s1 +:+ s2 = String c (s1 +:+ s2).
Proof. reflexivity. Qed.

Lemma str_app_nil_l (s : string) : "" +:+ s = s.
Proof. reflexivity. Qed.

Lemma str_app_assoc (s1 s2 s3 : string) : (s1 +:+ s2) +:+ s3 = s1 +:+ (s2 +:+ s3).
Proof.
  induction s1 as [|c s1 IH]; [reflexivity|].
  rewrite !str_app_cons. now f_equal.
Qed.

Lemma str_app_nil_r (s : string) : s +:+ "" = s.
Proof.
  induction s as [|c s IH]; [reflexivity|]. rewrite str_app_cons. now f_equal.
Qed.

(** Normalise appends of literals. *)
Ltac str_norm := rewrite ?str_app_assoc, ?str_app_cons, ?str_app_nil_l, ?str_app_nil_r.

Lemma str_all_app (p : ascii → bool) (s1 s2 : string) :
  str_all p (s1 +:+ s2) = str_all p s1 && str_all p s2.
Proof.
  induction s1 as [|c s1 IH]; [reflexivity|].
  rewrite str_app_cons. simpl. now rewrite IH, andb_assoc.
Qed.

Lemma str_all_impl (p q : ascii → bool) (s : string) :
  (∀ c, p c = true → q c = true) → str_all p s = true → str_all q s = true.
Proof.
  intros Hpq. induction s as [|c s IH]; simpl; [reflexivity|].
  rewrite !andb_true_iff. intros [Hc Hs]. split; [now apply Hpq | now apply IH].
Qed.

Lemma digits_spec (s : string) :
  digits s = true ↔ s ≠ "" ∧ str_all is_digit s = true.
Proof.
  unfold digits. rewrite andb_true_iff, negb_true_iff.
  now rewrite (String.eqb_neq s "").
Qed.

(** ** The language of [VERSION_REGEX] *)

Section RegexLanguage.

Lemma matches_Sym (cs : cset) (s : string) :
  matches (Sym cs) s ↔ ∃ c, s = String c "" ∧ cset_mem cs c = true.
Proof.
  split.
  - inversion 1; subst. eauto.
  - intros (c & -> & H). now constructor.
Qed.

Lemma matches_Cat (r1 r2 : regex) (s : string) :
  matches (Cat r1 r2) s ↔ ∃ s1 s2, s = s1 +:+ s2 ∧ matches r1 s1 ∧ matches r2 s2.
Proof.
  split.
  - inversion 1; subst. eauto.
  - intros (s1 & s2 & -> & H1 & H2). now constructor.
Qed.

Lemma matches_Opt (r : regex) (s : string) :
  matches (Opt r) s ↔ s = "" ∨ matches r s.
Proof.
  unfold Opt. split.
  - inversion 1 as [| | |? ? ? H'|? ? ? H'| |]; subst; [now right|].
    inversion H'. now left.
  - intros [->|H]; [apply M_AltR; constructor | now apply M_AltL].
Qed.

Lemma matches_Star_Sym (cs : cset) (s : string) :
  matches (Star (Sym cs)) s ↔ str_all (cset_mem cs) s = true.
Proof.
  split.
  - intros H. remember (Star (Sym cs)) as r eqn:E.
    induction H as [| | | | | |r0 s1 s2 H1 _ H2 IH2]; try discriminate E.
    + reflexivity.
    + injection E as ->. apply matches_Sym in H1 as (c & -> & Hc).
      rewrite str_app_cons, str_app_nil_l. simpl. now rewrite Hc, IH2.
  - induction s as [|c s IH]; simpl; [constructor|].
    rewrite andb_true_iff. intros [Hc Hs].
    apply (M_StarCons _ (String c "") s); [now constructor | now apply IH].
Qed.

Lemma matches_Plus_Sym (cs : cset) (s : string) :
  matches (Plus (Sym cs)) s ↔ s ≠ "" ∧ str_all (cset_mem cs) s = true.
Proof.
  unfold Plus. rewrite matches_Cat. split.
  - intros (s1 & s2 & -> & H1 & H2).
    apply matches_Sym in H1 as (c & -> & Hc). apply matches_Star_Sym in H2.
    rewrite str_app_cons, str_app_nil_l. split; [discriminate|].
    simpl. now rewrite Hc, H2.
  - intros [Hne H]. destruct s as [|c s]; [now contradiction Hne|].
    simpl in H. apply andb_true_iff in H as [Hc Hs].
    exists (String c ""), s. split; [reflexivity|].
    split; [now constructor | now apply matches_Star_Sym].
Qed.

Lemma matches_lit (c : ascii) (s : string) :
  matches (Sym (CLit c)) s ↔ s = String c "".
Proof.
  rewrite matches_Sym. split.
  - intros (c' & -> & H). simpl in H. now apply Ascii.eqb_eq in H as ->.
  - intros ->. exists c. split; [reflexivity | apply Ascii.eqb_refl].
Qed.

(** The full matches of the pattern: [v], three dotted digit runs, and
    an optional [-] with a run of word characters. *)
Lemma matches_VERSION_REGEX (p : string) :
  matches VERSION_REGEX p ↔
  ∃ ma mi pa tail,
    p = "v" +:+ ma +:+ "." +:+ mi +:+ "." +:+ pa +:+ tail
    ∧ digits ma = true ∧ digits mi = true ∧ digits pa = true
    ∧ (tail = "" ∨ ∃ st, tail = "-" +:+ st ∧ st ≠ "" ∧ str_all is_word st = true).
Proof.
  unfold VERSION_REGEX, Group.
  rewrite matches_Cat. setoid_rewrite matches_lit.
  split.
  - intros (s0 & s1 & -> & -> & H).
    apply matches_Cat in H as (ma & s2 & -> & Hma & H).
    apply matches_Cat in H as (d1 & s3 & -> & Hd1 & H). apply matches_lit in Hd1 as ->.
    apply matches_Cat in H as (mi & s4 & -> & Hmi & H).
    apply matches_Cat in H as (d2 & s5 & -> & Hd2 & H). apply matches_lit in Hd2 as ->.
    apply matches_Cat in H as (pa & tail & -> & Hpa & H).
    apply matches_Plus_Sym in Hma, Hmi, Hpa.
    exists ma, mi, pa, tail. split; [reflexivity|].
    rewrite !digits_spec. repeat (split; [assumption|]).
    apply matches_Opt in H as [->|H]; [now left | right].
    apply matches_Cat in H as (d & st & -> & Hd & Hst). apply matches_lit in Hd as ->.
    apply matches_Plus_Sym in Hst. now exists st.
  - intros (ma & mi & pa & tail & -> & Hma & Hmi & Hpa & Ht).
    apply digits_spec in Hma, Hmi, Hpa.
    exists "v", (ma +:+ "." +:+ mi +:+ "." +:+ pa +:+ tail).
    split; [reflexivity|]. split; [reflexivity|].
    apply matches_Cat. exists ma, ("." +:+ mi +:+ "." +:+ pa +:+ tail).
    split; [reflexivity|]. split; [now apply matches_Plus_Sym|].
    apply matches_Cat. exists ".", (mi +:+ "." +:+ pa +:+ tail).
    split; [reflexivity|]. split; [now apply matches_lit|].
    apply matches_Cat. exists mi, ("." +:+ pa +:+ tail).
    split; [reflexivity|]. split; [now apply matches_Plus_Sym|].
    apply matches_Cat. exists ".", (pa +:+ tail).
    split; [reflexivity|]. split; [now apply matches_lit|].
    apply matches_Cat. exists pa, tail.
    split; [reflexivity|]. split; [now apply matches_Plus_Sym|].
    apply matches_Opt. destruct Ht as [->|(st & -> & Hne & Hst)]; [now left | right].
    apply matches_Cat. exists "-", st.
    split; [reflexivity|]. split; [now apply matches_lit | now apply matches_Plus_Sym].
Qed.

End RegexLanguage.

(** The accepted strings, spelled out. *)
Lemma is_version_accepts (v : string) :
  is_version (VStr v) = Ok true ↔
  v ∈ ["latest"; "nightly"; "stable"]
  ∨ ∃ ma mi pa rest,
      v = "v" +:+ ma +:+ "." +:+ mi +:+ "." +:+ pa +:+ rest
      ∧ digits ma = true ∧ digits mi = true ∧ digits pa = true.
Proof.
  rewrite is_version_str. split.
  - intros [= H]. apply orb_true_iff in H as [H|H].
    + left. now apply bool_decide_eq_true in H.
    + right. apply re_match_prefix in H as (p & q & -> & H).
      apply matches_VERSION_REGEX in H as (ma & mi & pa & tail & -> & Hma & Hmi & Hpa & _).
      exists ma, mi, pa, (tail +:+ q). split; [|now repeat split].
      now str_norm.
  - intros [H|(ma & mi & pa & rest & -> & Hma & Hmi & Hpa)]; f_equal; apply orb_true_iff.
    + left. now apply bool_decide_eq_true.
    + right. apply re_match_prefix.
      exists ("v" +:+ ma +:+ "." +:+ mi +:+ "." +:+ pa +:+ ""), rest. split.
      * now str_norm.
      * apply matches_VERSION_REGEX. exists ma, mi, pa, "". repeat split; auto.
Qed.

(** X1.  A string is accepted by [is_version] exactly when it is one of the
    three special names or begins with [v], a run of digits, a dot, a run
    of digits, a dot and a run of digits; what follows is not looked at. *)
Theorem is_version_shape (v : string) :
  is_version (VStr v) = Ok true ↔
  v ∈ ["latest"; "nightly"; "stable"]
  ∨ ∃ ma mi pa rest,
      v = "v" +:+ ma +:+ "." +:+ mi +:+ "." +:+ pa +:+ rest
      ∧ digits ma = true ∧ digits mi = true ∧ digits pa = true.
Proof. exact (is_version_accepts v). Qed.

(** ** Splitting and joining *)

Lemma py_split_whole (sep : ascii) (w : string) :
  str_all (not_char sep) w = true → py_split sep w = [w].
Proof.
  induction w as [|c w IH]; simpl; [reflexivity|].
  unfold not_char at 1. rewrite andb_true_iff, negb_true_iff. intros [-> Hw].
  now rewrite (IH Hw).
Qed.

Lemma py_split_at (sep : ascii) (w rest : string) :
  str_all (not_char sep) w = true →
  py_split sep (w +:+ String sep rest) = w :: py_split sep rest.
Proof.
  induction w as [|c w IH]; intros Hw.
  - rewrite str_app_nil_l. simpl. now rewrite Ascii.eqb_refl.
  - simpl in Hw. unfold not_char at 1 in Hw.
    apply andb_true_iff in Hw as [Hc Hw]. apply negb_true_iff in Hc.
    rewrite str_app_cons. simpl. now rewrite Hc, (IH Hw).
Qed.

Lemma hd_split_app (sep : ascii) (w rest : string) :
  str_all (not_char sep) w = true →
  hd "" (py_split sep (w +:+ rest)) = w +:+ hd "" (py_split sep rest).
Proof.
  induction w as [|c w IH]; intros Hw; [reflexivity|].
  simpl in Hw. unfold not_char at 1 in Hw.
  apply andb_true_iff in Hw as [Hc Hw]. apply negb_true_iff in Hc.
  rewrite !str_app_cons. simpl. rewrite Hc, <- (IH Hw).
  now destruct (py_split_cons sep (w +:+ rest)) as (h & t & ->).
Qed.

Lemma tail_split_dash (tail : string) :
  tail = "" ∨ (∃ st, tail = "-" +:+ st) → hd "" (py_split "-" tail) = "".
Proof. now intros [->|(st & ->)]. Qed.

Lemma py_join_split (sep : ascii) (s : string) :
  py_join (String sep "") (py_split sep s) = s.
Proof.
  induction s as [|c s IH]; simpl; [reflexivity|].
  destruct (py_split_cons sep s) as (w & ws & E). rewrite E in *.
  destruct (Ascii.eqb_spec c sep) as [->|Hne].
  - change (py_join (String sep "") ("" :: w :: ws))
      with ("" +:+ String sep "" +:+ py_join (String sep "") (w :: ws)).
    now rewrite IH.
  - destruct ws as [|x ws]; simpl in *; [now subst|].
    rewrite <- IH. now rewrite str_app_cons.
Qed.

Lemma hd_prefix_join_take2 (sep : string) (l : list string) :
  str_prefix (hd "" l) (py_join sep (take 2 l)).
Proof.
  destruct l as [|w [|x ws]]; simpl.
  - now exists "".
  - exists "". now rewrite str_app_nil_r.
  - now exists (sep +:+ x).
Qed.

Lemma join_take2_prefix_join (sep : string) (l : list string) :
  str_prefix (py_join sep (take 2 l)) (py_join sep l).
Proof.
  destruct l as [|w [|x [|y ws]]]; simpl.
  - now exists "".
  - exists "". now rewrite str_app_nil_r.
  - exists "". now rewrite str_app_nil_r.
  - exists (sep +:+ py_join sep (y :: ws)). now rewrite !str_app_assoc.
Qed.

Lemma hd_prefix_join (sep : string) (l : list string) :
  str_prefix (hd "" l) (py_join sep l).
Proof.
  destruct l as [|w [|x ws]]; simpl.
  - now exists "".
  - exists "". now rewrite str_app_nil_r.
  - now exists (sep +:+ py_join sep (x :: ws)).
Qed.

Lemma str_prefix_trans (a b c : string) :
  str_prefix a b → str_prefix b c → str_prefix a c.
Proof. intros [r1 ->] [r2 ->]. exists (r1 +:+ r2). now rewrite str_app_assoc. Qed.

(** A run of digits holds no separator and does not start with [v]. *)
Lemma digits_not_char (sep : ascii) (s : string) :
  is_digit sep = false → str_all is_digit s = true →
  str_all (not_char sep) s = true.
Proof.
  intros Hsep. apply str_all_impl. intros c Hc. unfold not_char.
  apply negb_true_iff. destruct (Ascii.eqb_spec c sep) as [->|]; [congruence | reflexivity].
Qed.

Lemma py_lstrip_digits (s rest : string) :
  digits s = true → py_lstrip "v" (s +:+ rest) = s +:+ rest.
Proof.
  intros [Hne H]%digits_spec. destruct s as [|c s]; [now contradiction Hne|].
  simpl in H. apply andb_true_iff in H as [Hc _].
  rewrite str_app_cons. simpl. unfold ascii_in. simpl.
  destruct (Ascii.eqb_spec c "v") as [->|]; [discriminate Hc | reflexivity].
Qed.

Section WellFormedVersion.
Variables ma mi pa tail : string.
Hypothesis Hma : digits ma = true.
Hypothesis Hmi : digits mi = true.
Hypothesis Hpa : digits pa = true.

Local Abbreviation pv := ("v" +:+ ma +:+ "." +:+ mi +:+ "." +:+ pa +:+ tail).

Lemma wf_version_accepted : is_version (VStr pv) = Ok true.
Proof. apply is_version_accepts. right. now exists ma, mi, pa, tail. Qed.

Lemma wf_split_dot (pre : string) :
  str_all (not_char ".") pre = true →
  py_split "." (pre +:+ ma +:+ "." +:+ mi +:+ "." +:+ pa +:+ tail)
  = (pre +:+ ma) :: mi :: py_split "." (pa +:+ tail).
Proof.
  intros Hpre.
  apply digits_spec in Hma as [_ Da]. apply digits_spec in Hmi as [_ Di].
  rewrite !(str_app_cons "."), !str_app_nil_l.
  rewrite <- (str_app_assoc pre ma), py_split_at.
  - now rewrite py_split_at by (now apply digits_not_char).
  - rewrite str_all_app, Hpre. now apply digits_not_char.
Qed.

Lemma wf_major_of : major_of pv = ma.
Proof.
  unfold major_of. rewrite str_app_cons, str_app_nil_l.
  change (py_lstrip "v" (String "v" ?s)) with (py_lstrip "v" s).
  rewrite (py_lstrip_digits _ _ Hma).
  pose proof (wf_split_dot "" eq_refl) as H. rewrite !str_app_nil_l in H.
  now rewrite H.
Qed.

Lemma wf_minor_of : minor_of pv = ma +:+ "." +:+ mi.
Proof.
  unfold minor_of. rewrite str_app_cons, str_app_nil_l.
  change (py_lstrip "v" (String "v" ?s)) with (py_lstrip "v" s).
  rewrite (py_lstrip_digits _ _ Hma).
  pose proof (wf_split_dot "" eq_refl) as H. rewrite !str_app_nil_l in H.
  now rewrite H.
Qed.

Lemma wf_vmajor_of : vmajor_of pv = "v" +:+ ma.
Proof. unfold vmajor_of. now rewrite (wf_split_dot "v" eq_refl). Qed.

Lemma wf_vminor_of : vminor_of pv = "v" +:+ ma +:+ "." +:+ mi.
Proof.
  unfold vminor_of. rewrite (wf_split_dot "v" eq_refl).
  reflexivity.
Qed.

Lemma wf_body_no_dash (pre : string) :
  str_all (not_char "-") pre = true →
  str_all (not_char "-") (pre +:+ ma +:+ "." +:+ mi +:+ "." +:+ pa) = true.
Proof.
  intros Hpre.
  apply digits_spec in Hma as [_ Da]. apply digits_spec in Hmi as [_ Di].
  apply digits_spec in Hpa as [_ Dp].
  rewrite !str_all_app, Hpre.
  rewrite (digits_not_char "-" ma), (digits_not_char "-" mi),
    (digits_not_char "-" pa) by (assumption || reflexivity).
  reflexivity.
Qed.

Lemma wf_split_dash (pre : string) :
  str_all (not_char "-") pre = true →
  hd "" (py_split "-" (pre +:+ ma +:+ "." +:+ mi +:+ "." +:+ pa +:+ tail))
  = (pre +:+ ma +:+ "." +:+ mi +:+ "." +:+ pa) +:+ hd "" (py_split "-" tail).
Proof.
  intros Hpre. rewrite <- (hd_split_app "-" _ tail (wf_body_no_dash pre Hpre)).
  now rewrite !str_app_assoc.
Qed.

Lemma wf_patch_of :
  patch_of pv = (ma +:+ "." +:+ mi +:+ "." +:+ pa) +:+ hd "" (py_split "-" tail).
Proof.
  unfold patch_of. rewrite str_app_cons, str_app_nil_l.
  change (py_lstrip "v" (String "v" ?s)) with (py_lstrip "v" s).
  rewrite (py_lstrip_digits _ _ Hma).
  pose proof (wf_split_dash "" eq_refl) as H. rewrite !str_app_nil_l in H.
  exact H.
Qed.

Lemma wf_vpatch_of :
  vpatch_of pv = ("v" +:+ ma +:+ "." +:+ mi +:+ "." +:+ pa) +:+ hd "" (py_split "-" tail).
Proof. unfold vpatch_of. apply (wf_split_dash "v" eq_refl). Qed.

End WellFormedVersion.

(** The version fields of the result, for any extra fields. *)
Lemma generate_info_version_lookups (pv sys arch : string) (kwargs : gmap string value) :
  is_version (VStr pv) = Ok true →
  sys ∈ ["windows"; "linux"; "freebsd"; "macos"] →
  arch ∈ ["i686"; "x86_64"; "ARMv8"; "ARMv7"] →
  binds_parameter kwargs = false →
  ∃ m, generate_info pv sys arch kwargs = Ok m
       ∧ m !! "version" = Some (VStr pv)
       ∧ m !! "major_version" = Some (VStr (major_of pv))
       ∧ m !! "vmajor_version" = Some (VStr (vmajor_of pv))
       ∧ m !! "minor_version" = Some (VStr (minor_of pv))
       ∧ m !! "vminor_version" = Some (VStr (vminor_of pv))
       ∧ m !! "patch_version" = Some (VStr (patch_of pv))
       ∧ m !! "vpatch_version" = Some (VStr (vpatch_of pv)).
Proof.
  intros Hv Hs Ha Hk.
  apply is_system_true in Hs. apply is_architecture_true in Ha.
  destruct (generate_info_returns pv sys arch Hs Ha Hv)
    as (m0 & E0 & _ & _ & _ & L0 & L1 & L2 & L3 & L4 & L5 & L6).
  exists (dict_update kwargs m0).
  rewrite generate_info_kwargs, Hk, E0. split; [reflexivity|].
  rewrite !dict_update_lookup, L0, L1, L2, L3, L4, L5, L6. now repeat split.
Qed.

(** X2.  For a version [v<major>.<minor>.<patch>], alone or followed by
    [-] and a status, the v-stripped fields are [<major>],
    [<major>.<minor>] and [<major>.<minor>.<patch>], and the v-preserved
    fields are the same with the leading [v]; the status is dropped from
    the patch fields only. *)
Theorem generate_info_version_fields
    (ma mi pa tail sys arch : string) (kwargs : gmap string value) :
  digits ma = true → digits mi = true → digits pa = true →
  tail = "" ∨ (∃ st, tail = "-" +:+ st) →
  sys ∈ ["windows"; "linux"; "freebsd"; "macos"] →
  arch ∈ ["i686"; "x86_64"; "ARMv8"; "ARMv7"] →
  binds_parameter kwargs = false →
  ∃ m, generate_info ("v" +:+ ma +:+ "." +:+ mi +:+ "." +:+ pa +:+ tail)
         sys arch kwargs = Ok m
       ∧ m !! "version"
         = Some (VStr ("v" +:+ ma +:+ "." +:+ mi +:+ "." +:+ pa +:+ tail))
       ∧ m !! "major_version" = Some (VStr ma)
       ∧ m !! "minor_version" = Some (VStr (ma +:+ "." +:+ mi))
       ∧ m !! "patch_version" = Some (VStr (ma +:+ "." +:+ mi +:+ "." +:+ pa))
       ∧ m !! "vmajor_version" = Some (VStr ("v" +:+ ma))
       ∧ m !! "vminor_version" = Some (VStr ("v" +:+ ma +:+ "." +:+ mi))
       ∧ m !! "vpatch_version"
         = Some (VStr ("v" +:+ ma +:+ "." +:+ mi +:+ "." +:+ pa)).
Proof.
  intros Hma Hmi Hpa Ht Hs Ha Hk.
  destruct (generate_info_version_lookups _ sys arch kwargs
              (wf_version_accepted ma mi pa tail Hma Hmi Hpa) Hs Ha Hk)
    as (m & E & L0 & L1 & L2 & L3 & L4 & L5 & L6).
  exists m. split; [exact E|].
  rewrite (wf_major_of ma mi pa tail Hma Hmi) in L1.
  rewrite (wf_vmajor_of ma mi pa tail Hma Hmi) in L2.
  rewrite (wf_minor_of ma mi pa tail Hma Hmi) in L3.
  rewrite (wf_vminor_of ma mi pa tail Hma Hmi) in L4.
  rewrite (wf_patch_of ma mi pa tail Hma Hmi Hpa), (tail_split_dash tail Ht),
    str_app_nil_r in L5.
  rewrite (wf_vpatch_of ma mi pa tail Hma Hmi Hpa), (tail_split_dash tail Ht),
    str_app_nil_r in L6.
  now repeat split.
Qed.

Lemma generate_info_version_fields_witness :
  digits "1" = true ∧ digits "10" = true ∧ digits "0" = true
  ∧ ("-rc1" = "" ∨ (∃ st, "-rc1" = "-" +:+ st))
  ∧ "linux" ∈ ["windows"; "linux"; "freebsd"; "macos"]
  ∧ "ARMv8" ∈ ["i686"; "x86_64"; "ARMv8"; "ARMv7"]
  ∧ binds_parameter ∅ = false
  ∧ ∃ m, generate_info ("v" +:+ "1" +:+ "." +:+ "10" +:+ "." +:+ "0" +:+ "-rc1")
           "linux" "ARMv8" ∅ = Ok m
         ∧ m !! "version"
           = Some (VStr ("v" +:+ "1" +:+ "." +:+ "10" +:+ "." +:+ "0" +:+ "-rc1"))
         ∧ m !! "major_version" = Some (VStr "1")
         ∧ m !! "minor_version" = Some (VStr ("1" +:+ "." +:+ "10"))
         ∧ m !! "patch_version" = Some (VStr ("1" +:+ "." +:+ "10" +:+ "." +:+ "0"))
         ∧ m !! "vmajor_version" = Some (VStr ("v" +:+ "1"))
         ∧ m !! "vminor_version" = Some (VStr ("v" +:+ "1" +:+ "." +:+ "10"))
         ∧ m !! "vpatch_version"
           = Some (VStr ("v" +:+ "1" +:+ "." +:+ "10" +:+ "." +:+ "0")).
Proof.
  assert (Ht : "-rc1" = "" ∨ (∃ st, "-rc1" = "-" +:+ st)) by (right; now exists "rc1").
  repeat (split; [first [reflexivity | exact Ht | solve_decide]|]).
  apply (generate_info_version_fields "1" "10" "0" "-rc1" "linux" "ARMv8" ∅);
    first [reflexivity | exact Ht | solve_decide].
Defined.

(** X3.  For every accepted version each version field extends the
    coarser one: [major_version] is a prefix of [minor_version], which is
    a prefix of [patch_version]; likewise [vmajor_version],
    [vminor_version], [vpatch_version], and the last is a prefix of
    [version]. *)
Theorem generate_info_version_prefixes
    (pv sys arch : string) (kwargs : gmap string value) :
  is_version (VStr pv) = Ok true →
  sys ∈ ["windows"; "linux"; "freebsd"; "macos"] →
  arch ∈ ["i686"; "x86_64"; "ARMv8"; "ARMv7"] →
  binds_parameter kwargs = false →
  ∃ m major minor patch vmajor vminor vpatch,
    generate_info pv sys arch kwargs = Ok m
    ∧ m !! "major_version" = Some (VStr major)
    ∧ m !! "minor_version" = Some (VStr minor)
    ∧ m !! "patch_version" = Some (VStr patch)
    ∧ m !! "vmajor_version" = Some (VStr vmajor)
    ∧ m !! "vminor_version" = Some (VStr vminor)
    ∧ m !! "vpatch_version" = Some (VStr vpatch)
    ∧ str_prefix major minor ∧ str_prefix minor patch
    ∧ str_prefix vmajor vminor ∧ str_prefix vminor vpatch
    ∧ str_prefix vpatch pv.
Proof.
  intros Hv Hs Ha Hk.
  destruct (generate_info_version_lookups pv sys arch kwargs Hv Hs Ha Hk)
    as (m & E & L0 & L1 & L2 & L3 & L4 & L5 & L6).
  exists m, (major_of pv), (minor_of pv), (patch_of pv),
    (vmajor_of pv), (vminor_of pv), (vpatch_of pv).
  repeat (split; [assumption|]).
  split; [apply hd_prefix_join_take2|].
  assert (Hmid : str_prefix (minor_of pv) (patch_of pv)
                 ∧ str_prefix (vminor_of pv) (vpatch_of pv)).
  { apply is_version_accepts in Hv
      as [Hn|(ma & mi & pa & rest & -> & Hma & Hmi & Hpa)].
    - rewrite !elem_of_cons, elem_of_nil in Hn.
      destruct Hn as [->|[->|[->|[]]]]; split; now exists "".
    - rewrite (wf_minor_of ma mi pa rest Hma Hmi),
        (wf_vminor_of ma mi pa rest Hma Hmi),
        (wf_patch_of ma mi pa rest Hma Hmi Hpa),
        (wf_vpatch_of ma mi pa rest Hma Hmi Hpa).
      split; exists ("." +:+ pa +:+ hd "" (py_split "-" rest));
        now rewrite !str_app_assoc. }
  destruct Hmid as [Hmin Hvmin].
  split; [exact Hmin|]. split; [apply hd_prefix_join_take2|].
  split; [exact Hvmin|].
  unfold vpatch_of. rewrite <- (py_join_split "-" pv) at 2. apply hd_prefix_join.
Qed.

Lemma generate_info_version_prefixes_witness :
  is_version (VStr "v1.6.2-rc1") = Ok true
  ∧ "macos" ∈ ["windows"; "linux"; "freebsd"; "macos"]
  ∧ "x86_64" ∈ ["i686"; "x86_64"; "ARMv8"; "ARMv7"]
  ∧ binds_parameter ∅ = false
  ∧ ∃ m major minor patch vmajor vminor vpatch,
      generate_info "v1.6.2-rc1" "macos" "x86_64" ∅ = Ok m
      ∧ m !! "major_version" = Some (VStr major)
      ∧ m !! "minor_version" = Some (VStr minor)
      ∧ m !! "patch_version" = Some (VStr patch)
      ∧ m !! "vmajor_version" = Some (VStr vmajor)
      ∧ m !! "vminor_version" = Some (VStr vminor)
      ∧ m !! "vpatch_version" = Some (VStr vpatch)
      ∧ str_prefix major minor ∧ str_prefix minor patch
      ∧ str_prefix vmajor vminor ∧ str_prefix vminor vpatch
      ∧ str_prefix vpatch "v1.6.2-rc1".
Proof.
  repeat (split; [first [reflexivity | solve_decide]|]).
  apply (generate_info_version_prefixes "v1.6.2-rc1" "macos" "x86_64" ∅);
    first [reflexivity | solve_decide].
Defined.

(** ** The filters, one by one *)

(** Reject through the predicate of the filter itself, or through the
    filter its shape function calls. *)
Ltac reject_base H :=
  apply call_assert; cbn [f_system f_sys f_os f_extension f_arch f_bit f_osarch
    NameFilter_init nf_validate lambda1 lambda2]; now rewrite H.

Ltac reject_derived Hbase :=
  unfold call at 1;
  cbn [f_System f_SYSTEM f_Sys f_SYS f_Os f_OS f_Arch f_ARCH f_Osarch f_OSarch
       NameFilter_init nf_validate nf_f nf_rules no_validate lambda1 lambda2
       mbind result_bind];
  now rewrite Hbase.

(** X4.  Every filter of the system family, also those declared without a
    predicate, raises [AssertionError] on any value that is not a valid
    system. *)
Theorem system_filters_reject (x : value) :
  is_system x = false →
  Forall (λ f, call f [x] = Raise AssertionError)
    [f_system; f_System; f_SYSTEM; f_sys; f_Sys; f_SYS; f_os; f_Os; f_OS;
     f_extension].
Proof.
  intros H.
  assert (H1 : call f_system [x] = Raise AssertionError) by reject_base H.
  assert (H2 : call f_sys [x] = Raise AssertionError) by reject_base H.
  assert (H3 : call f_os [x] = Raise AssertionError) by reject_base H.
  assert (H4 : call f_extension [x] = Raise AssertionError) by reject_base H.
  repeat constructor; first [assumption | reject_derived H1 | reject_derived H2
                             | reject_derived H3].
Qed.

Lemma system_filters_reject_witness :
  is_system (VStr "Windows") = false
  ∧ Forall (λ f, call f [VStr "Windows"] = Raise AssertionError)
      [f_system; f_System; f_SYSTEM; f_sys; f_Sys; f_SYS; f_os; f_Os; f_OS;
       f_extension].
Proof.
  split; [reflexivity|]. apply (system_filters_reject (VStr "Windows")). reflexivity.
Defined.

(** X5.  Every filter of the architecture family, also those declared
    without a predicate, raises [AssertionError] on any value that is not a
    valid architecture; so do the three combined filters, whatever their
    first argument. *)
Theorem architecture_filters_reject (os arch : value) :
  is_architecture arch = false →
  Forall (λ f, call f [arch] = Raise AssertionError) [f_arch; f_Arch; f_ARCH; f_bit]
  ∧ Forall (λ f, call f [os; arch] = Raise AssertionError)
      [f_osarch; f_Osarch; f_OSarch].
Proof.
  intros Ha.
  assert (H1 : call f_arch [arch] = Raise AssertionError) by reject_base Ha.
  assert (H2 : call f_bit [arch] = Raise AssertionError) by reject_base Ha.
  assert (H3 : call f_osarch [os; arch] = Raise AssertionError).
  { apply call_assert. cbn [f_osarch NameFilter_init nf_validate lambda2].
    now rewrite Ha, andb_false_r. }
  split; repeat constructor;
    first [assumption | reject_derived H1 | reject_derived H3].
Qed.

Lemma architecture_filters_reject_witness :
  is_architecture (VStr "x64") = false
  ∧ Forall (λ f, call f [VStr "x64"] = Raise AssertionError)
      [f_arch; f_Arch; f_ARCH; f_bit]
  ∧ Forall (λ f, call f [VStr "win"; VStr "x64"] = Raise AssertionError)
      [f_osarch; f_Osarch; f_OSarch].
Proof.
  split; [reflexivity|].
  apply (architecture_filters_reject (VStr "win") (VStr "x64")). reflexivity.
Defined.

(** X6.  The combined filters take the short os name: on any first
    argument that is not one of win, linux, freebsd, macos (the long
    system name "windows" for one) they raise [AssertionError]. *)
Theorem osarch_filters_reject (os arch : value) :
  is_os os = false →
  Forall (λ f, call f [os; arch] = Raise AssertionError)
    [f_osarch; f_Osarch; f_OSarch].
Proof.
  intros Ho.
  assert (H1 : call f_osarch [os; arch] = Raise AssertionError).
  { apply call_assert. cbn [f_osarch NameFilter_init nf_validate lambda2].
    now rewrite Ho. }
  repeat constructor; first [assumption | reject_derived H1].
Qed.

Lemma osarch_filters_reject_witness :
  is_os (VStr "windows") = false
  ∧ Forall (λ f, call f [VStr "windows"; VStr "x86_64"] = Raise AssertionError)
      [f_osarch; f_Osarch; f_OSarch].
Proof.
  split; [reflexivity|].
  apply (osarch_filters_reject (VStr "windows") (VStr "x86_64")). reflexivity.
Defined.

Lemma is_system_value (x : value) :
  is_system x = true → ∃ s, x = VStr s ∧ s ∈ ["windows"; "linux"; "freebsd"; "macos"].
Proof.
  unfold is_system, VALID_SYSTEM. rewrite py_in_true, !elem_of_cons, elem_of_nil.
  intros [->|[->|[->|[->|[]]]]]; eexists; (split; [reflexivity | solve_decide]).
Qed.

Lemma is_architecture_value (x : value) :
  is_architecture x = true →
  ∃ s, x = VStr s ∧ s ∈ ["i686"; "x86_64"; "ARMv8"; "ARMv7"].
Proof.
  unfold is_architecture, VALID_ARCHITECTURE, rules_arch; cbn [fmap list_fmap fst].
  rewrite py_in_true, !elem_of_cons, elem_of_nil.
  intros [->|[->|[->|[->|[]]]]]; eexists; (split; [reflexivity | solve_decide]).
Qed.

Lemma is_os_value (x : value) :
  is_os x = true → ∃ s, x = VStr s ∧ s ∈ ["win"; "linux"; "freebsd"; "macos"].
Proof.
  unfold is_os, VALID_OS. rewrite py_in_true, !elem_of_cons, elem_of_nil.
  intros [->|[->|[->|[->|[]]]]]; eexists; (split; [reflexivity | solve_decide]).
Qed.

(** A filter call that returns has passed the predicate. *)
Lemma call_Ok_validated (self : NameFilter) (args : list value) (r : value) :
  call self args = Ok r → nf_validate self args = Ok true.
Proof.
  unfold call. destruct (nf_validate self args) as [[|]|e]; [reflexivity| |];
    discriminate.
Qed.

Ltac each_value H :=
  rewrite !elem_of_cons, elem_of_nil in H; destruct H as [->|[->|[->|[->|[]]]]].

(** X7.  On a valid system [f_os] returns a short os name that [is_os]
    accepts, and on a valid architecture [f_arch] returns a short name
    that [is_arch] accepts; both are one-to-one: no other argument gives
    the same result. *)
Theorem short_names_valid (system architecture : value) :
  is_system system = true → is_architecture architecture = true →
  ∃ os arch,
    call f_os [system] = Ok os ∧ is_os os = true
    ∧ call f_arch [architecture] = Ok arch ∧ is_arch arch = true
    ∧ (∀ x, call f_os [x] = Ok os → x = system)
    ∧ (∀ x, call f_arch [x] = Ok arch → x = architecture).
Proof.
  intros (s & -> & Hs)%is_system_value (a & -> & Ha)%is_architecture_value.
  assert (Inv_os : ∀ x r, call f_os [x] = Ok r →
            ∃ s', x = VStr s' ∧ s' ∈ ["windows"; "linux"; "freebsd"; "macos"]).
  { intros x r Hx. apply call_Ok_validated in Hx.
    cbn [f_os NameFilter_init nf_validate lambda1] in Hx.
    injection Hx as Hx. now apply is_system_value. }
  assert (Inv_arch : ∀ x r, call f_arch [x] = Ok r →
            ∃ s', x = VStr s' ∧ s' ∈ ["i686"; "x86_64"; "ARMv8"; "ARMv7"]).
  { intros x r Hx. apply call_Ok_validated in Hx.
    cbn [f_arch NameFilter_init nf_validate lambda1] in Hx.
    injection Hx as Hx. now apply is_architecture_value. }
  each_value Hs; each_value Ha;
    (eexists _, _; split; [vm_compute; reflexivity|]; split; [reflexivity|];
     split; [vm_compute; reflexivity|]; split; [reflexivity|]; split;
     [ intros x Hx; destruct (Inv_os x _ Hx) as (s' & -> & Hs'); each_value Hs';
       vm_compute in Hx; congruence
     | intros x Hx; destruct (Inv_arch x _ Hx) as (s' & -> & Hs'); each_value Hs';
       vm_compute in Hx; congruence ]).
Qed.

Lemma short_names_valid_witness :
  is_system (VStr "windows") = true ∧ is_architecture (VStr "ARMv7") = true
  ∧ ∃ os arch,
      call f_os [VStr "windows"] = Ok os ∧ is_os os = true
      ∧ call f_arch [VStr "ARMv7"] = Ok arch ∧ is_arch arch = true
      ∧ (∀ x, call f_os [x] = Ok os → x = VStr "windows")
      ∧ (∀ x, call f_arch [x] = Ok arch → x = VStr "ARMv7").
Proof.
  split; [reflexivity|]. split; [reflexivity|].
  apply (short_names_valid (VStr "windows") (VStr "ARMv7")); reflexivity.
Defined.

(** X8.  On a short os name and a valid architecture [f_osarch] returns
    the special bundle name for the five table entries and [os-arch]
    for every other pair; [f_Osarch] and [f_OSarch] return its
    capitalised and upper-cased forms; and the name identifies the pair:
    no other arguments give it. *)
Theorem osarch_names (os arch : value) :
  is_os os = true → is_architecture arch = true →
  ∃ o a r,
    os = VStr o ∧ arch = VStr a
    ∧ call f_osarch [os; arch] = Ok (VStr r)
    ∧ call f_Osarch [os; arch] = Ok (VStr (py_capitalize r))
    ∧ call f_OSarch [os; arch] = Ok (VStr (py_upper r))
    ∧ ((o, a, r) ∈ [("win", "i686", "win32"); ("win", "x86_64", "win64");
                    ("macos", "x86_64", "mac64");
                    ("linux", "ARMv7", "linux-armv7l");
                    ("linux", "ARMv8", "linux-aarch64")]
       ∨ (((o, a) ∉ [("win", "i686"); ("win", "x86_64"); ("macos", "x86_64");
                     ("linux", "ARMv7"); ("linux", "ARMv8")])
          ∧ r = o +:+ "-" +:+ a))
    ∧ (∀ os' arch', call f_osarch [os'; arch'] = Ok (VStr r) →
                    os' = os ∧ arch' = arch).
Proof.
  intros (o & -> & Ho)%is_os_value (a & -> & Ha)%is_architecture_value.
  assert (Inv : ∀ x y r, call f_osarch [x; y] = Ok r →
            ∃ o' a', x = VStr o' ∧ y = VStr a'
                     ∧ o' ∈ ["win"; "linux"; "freebsd"; "macos"]
                     ∧ a' ∈ ["i686"; "x86_64"; "ARMv8"; "ARMv7"]).
  { intros x y r Hx. apply call_Ok_validated in Hx.
    cbn [f_osarch NameFilter_init nf_validate lambda2] in Hx.
    injection Hx as Hx. apply andb_true_iff in Hx as [Hx Hy].
    apply is_os_value in Hx as (o' & -> & Ho').
    apply is_architecture_value in Hy as (a' & -> & Ha'). now exists o', a'. }
  each_value Ho; each_value Ha;
    (eexists _, _, _; split; [reflexivity|]; split; [reflexivity|];
     split; [vm_compute; reflexivity|]; split; [vm_compute; reflexivity|];
     split; [vm_compute; reflexivity|]; split;
     [ first [left; solve_decide | right; split; [solve_decide | reflexivity]]
     | intros x y Hx; destruct (Inv x y _ Hx) as (o' & a' & -> & -> & Ho' & Ha');
       each_value Ho'; each_value Ha'; vm_compute in Hx;
       first [discriminate Hx | now split] ]).
Qed.

Lemma osarch_names_witness :
  is_os (VStr "linux") = true ∧ is_architecture (VStr "ARMv8") = true
  ∧ ∃ o a r,
      VStr "linux" = VStr o ∧ VStr "ARMv8" = VStr a
      ∧ call f_osarch [VStr "linux"; VStr "ARMv8"] = Ok (VStr r)
      ∧ call f_Osarch [VStr "linux"; VStr "ARMv8"] = Ok (VStr (py_capitalize r))
      ∧ call f_OSarch [VStr "linux"; VStr "ARMv8"] = Ok (VStr (py_upper r))
      ∧ ((o, a, r) ∈ [("win", "i686", "win32"); ("win", "x86_64", "win64");
                      ("macos", "x86_64", "mac64");
                      ("linux", "ARMv7", "linux-armv7l");
                      ("linux", "ARMv8", "linux-aarch64")]
         ∨ (((o, a) ∉ [("win", "i686"); ("win", "x86_64"); ("macos", "x86_64");
                       ("linux", "ARMv7"); ("linux", "ARMv8")])
            ∧ r = o +:+ "-" +:+ a))
      ∧ (∀ os' arch', call f_osarch [os'; arch'] = Ok (VStr r) →
                      os' = VStr "linux" ∧ arch' = VStr "ARMv8").
Proof.
  split; [reflexivity|]. split; [reflexivity|].
  apply (osarch_names (VStr "linux") (VStr "ARMv8")); reflexivity.
Defined.

(** X9.  The v-preserved filters have no predicate: on every string,
    accepted as a version or not, they return, each result a prefix of the
    input and the major one a prefix of the minor one; their capitalised
    companions return the capitalised results. *)
Theorem v_filters_total (s : string) :
  ∃ vmajor vminor vpatch,
    call f_vmajor_version [VStr s] = Ok (VStr vmajor)
    ∧ call f_vminor_version [VStr s] = Ok (VStr vminor)
    ∧ call f_vpatch_version [VStr s] = Ok (VStr vpatch)
    ∧ call f_Vmajor_version [VStr s] = Ok (VStr (py_capitalize vmajor))
    ∧ call f_Vminor_version [VStr s] = Ok (VStr (py_capitalize vminor))
    ∧ call f_Vpatch_version [VStr s] = Ok (VStr (py_capitalize vpatch))
    ∧ str_prefix vmajor vminor ∧ str_prefix vminor s ∧ str_prefix vpatch s.
Proof.
  exists (vmajor_of s), (vminor_of s), (vpatch_of s).
  pose proof (call_f_vmajor_version s) as H1.
  pose proof (call_f_vminor_version s) as H2.
  pose proof (call_f_vpatch_version s) as H3.
  repeat (split; [assumption|]).
  split; [|split; [|split]].
  - unfold call at 1.
    cbn [f_Vmajor_version NameFilter_init nf_validate nf_f nf_rules no_validate
         lambda1 mbind result_bind].
    now rewrite H1.
  - unfold call at 1.
    cbn [f_Vminor_version NameFilter_init nf_validate nf_f nf_rules no_validate
         lambda1 mbind result_bind].
    now rewrite H2.
  - unfold call at 1.
    cbn [f_Vpatch_version NameFilter_init nf_validate nf_f nf_rules no_validate
         lambda1 mbind result_bind].
    now rewrite H3.
  - split; [apply hd_prefix_join_take2|]. split.
    + unfold vminor_of. rewrite <- (py_join_split "." s) at 2.
      apply join_take2_prefix_join.
    + unfold vpatch_of. rewrite <- (py_join_split "-" s) at 2. apply hd_prefix_join.
Qed.

(** ** The platform fields of [generate_info] *)

(** The platform fields are those of the call with version "latest" and
    no extra fields. *)
Lemma generate_info_platform (pv sys arch : string) (kwargs : gmap string value) :
  is_version (VStr pv) = Ok true →
  sys ∈ ["windows"; "linux"; "freebsd"; "macos"] →
  arch ∈ ["i686"; "x86_64"; "ARMv8"; "ARMv7"] →
  binds_parameter kwargs = false →
  ∃ m m1, generate_info pv sys arch kwargs = Ok m
          ∧ generate_info "latest" sys arch ∅ = Ok m1
          ∧ Forall (λ k, m !! k = m1 !! k) PLATFORM_FIELDS.
Proof.
  intros Hv Hs Ha Hk. rewrite generate_info_kwargs, Hk.
  assert (H0 : ∃ m0 m1, generate_info pv sys arch ∅ = Ok m0
                        ∧ generate_info "latest" sys arch ∅ = Ok m1
                        ∧ Forall (λ k, m0 !! k = m1 !! k ∧ is_Some (m0 !! k))
                            PLATFORM_FIELDS).
  { unfold generate_info. change (binds_parameter ∅) with false. cbv iota.
    rewrite (call_f_version pv Hv), (call_f_major_version pv Hv),
      (call_f_minor_version pv Hv), (call_f_patch_version pv Hv),
      call_f_vmajor_version, call_f_vminor_version, call_f_vpatch_version.
    generalize (major_of pv), (vmajor_of pv), (minor_of pv), (vminor_of pv),
      (patch_of pv), (vpatch_of pv). intros.
    each_value Hs; each_value Ha; repeat step_call; rewrite !bind_Ok;
      (eexists _, _; split; [reflexivity|]; split; [reflexivity|]);
      unfold dict_update; rewrite !(right_id_L ∅ (∪));
      repeat constructor; vm_compute; eauto. }
  destruct H0 as (m0 & m1 & -> & E1 & HF).
  exists (dict_update kwargs m0), m1. split; [reflexivity|]. split; [exact E1|].
  eapply Forall_impl; [exact HF|].
  intros k [Hk1 [v Hk0]]. cbn beta. now rewrite dict_update_lookup, <- Hk1, Hk0.
Qed.

Lemma Ok_inj {A : Type} (a b : A) : Ok a = Ok b → a = b.
Proof. now intros [= ->]. Qed.

(** Read the keys [keys] of the run with version "latest" named by [E1],
    and carry them over to the run that agrees with it by [HF]. *)
Ltac read_platform keys E1 HF :=
  match type of E1 with
  | generate_info "latest" ?sys ?arch ∅ = Ok ?m1 =>
      let r := eval vm_compute in (fields_of (generate_info "latest" sys arch ∅) keys) in
      let H := fresh "H" in
      assert (H : fields_of (generate_info "latest" sys arch ∅) keys = r)
        by (vm_compute; reflexivity);
      unfold fields_of in H; rewrite E1 in H;
      cbn [mbind result_bind mret result_ret fmap list_fmap] in H;
      apply Ok_inj in H; repeat (apply cons_eq_inv in H as [? H]); clear H;
      unfold PLATFORM_FIELDS in HF;
      repeat (apply Forall_cons in HF as [? HF]); clear HF;
      repeat match goal with
             | H1 : ?m !! ?k = m1 !! ?k, H2 : m1 !! ?k = _ |- _ =>
                 rewrite H2 in H1; clear H2
             end
  end.

(** X10.  The platform fields of the result depend on the system and the
    architecture only, and the seven version fields on the version only:
    changing the version and the extra fields leaves the former, changing
    the platform and the extra fields leaves the latter. *)
Theorem generate_info_fields_separate
    (pv pv' sys sys' arch arch' : string) (kwargs kwargs' : gmap string value) :
  is_version (VStr pv) = Ok true → is_version (VStr pv') = Ok true →
  sys ∈ ["windows"; "linux"; "freebsd"; "macos"] →
  sys' ∈ ["windows"; "linux"; "freebsd"; "macos"] →
  arch ∈ ["i686"; "x86_64"; "ARMv8"; "ARMv7"] →
  arch' ∈ ["i686"; "x86_64"; "ARMv8"; "ARMv7"] →
  binds_parameter kwargs = false → binds_parameter kwargs' = false →
  ∃ m m1 m2,
    generate_info pv sys arch kwargs = Ok m
    ∧ generate_info pv' sys arch kwargs' = Ok m1
    ∧ generate_info pv sys' arch' kwargs' = Ok m2
    ∧ (∀ k, k ∈ PLATFORM_FIELDS → m !! k = m1 !! k)
    ∧ (∀ k, k ∈ ["version"; "major_version"; "vmajor_version"; "minor_version";
                 "vminor_version"; "patch_version"; "vpatch_version"] →
            m !! k = m2 !! k).
Proof.
  intros Hv Hv' Hs Hs' Ha Ha' Hk Hk'.
  destruct (generate_info_platform pv sys arch kwargs Hv Hs Ha Hk)
    as (m & l & E & El & HF).
  destruct (generate_info_platform pv' sys arch kwargs' Hv' Hs Ha Hk')
    as (m1 & l1 & E1 & El1 & HF1).
  destruct (generate_info_version_lookups pv sys arch kwargs Hv Hs Ha Hk)
    as (n & En & L0 & L1 & L2 & L3 & L4 & L5 & L6).
  destruct (generate_info_version_lookups pv sys' arch' kwargs' Hv Hs' Ha' Hk')
    as (m2 & E2 & L0' & L1' & L2' & L3' & L4' & L5' & L6').
  assert (n = m) as -> by congruence. assert (l1 = l) as -> by congruence.
  exists m, m1, m2. repeat (split; [assumption|]). split.
  - intros k Hin. rewrite Forall_forall in HF, HF1.
    now rewrite (HF k Hin), (HF1 k Hin).
  - intros k Hin. rewrite !elem_of_cons, elem_of_nil in Hin.
    destruct Hin as [->|[->|[->|[->|[->|[->|[->|[]]]]]]]]; congruence.
Qed.

Lemma generate_info_fields_separate_witness :
  is_version (VStr "v1.2.3") = Ok true ∧ is_version (VStr "nightly") = Ok true
  ∧ "linux" ∈ ["windows"; "linux"; "freebsd"; "macos"]
  ∧ "windows" ∈ ["windows"; "linux"; "freebsd"; "macos"]
  ∧ "ARMv8" ∈ ["i686"; "x86_64"; "ARMv8"; "ARMv7"]
  ∧ "i686" ∈ ["i686"; "x86_64"; "ARMv8"; "ARMv7"]
  ∧ binds_parameter ∅ = false
  ∧ binds_parameter {["os" := VStr "mine"]} = false
  ∧ ∃ m m1 m2,
      generate_info "v1.2.3" "linux" "ARMv8" ∅ = Ok m
      ∧ generate_info "nightly" "linux" "ARMv8" {["os" := VStr "mine"]} = Ok m1
      ∧ generate_info "v1.2.3" "windows" "i686" {["os" := VStr "mine"]} = Ok m2
      ∧ (∀ k, k ∈ PLATFORM_FIELDS → m !! k = m1 !! k)
      ∧ (∀ k, k ∈ ["version"; "major_version"; "vmajor_version"; "minor_version";
                   "vminor_version"; "patch_version"; "vpatch_version"] →
              m !! k = m2 !! k).
Proof.
  repeat (split; [first [reflexivity | solve_decide]|]).
  apply (generate_info_fields_separate "v1.2.3" "nightly" "linux" "windows"
           "ARMv8" "i686" ∅ {["os" := VStr "mine"]});
    first [reflexivity | solve_decide].
Defined.

(** X11.  In the result the capitalised and upper-cased fields are
    [str.capitalize] and [str.upper] of their plain siblings: [System],
    [SYSTEM] of [system]; [Sys], [SYS] of [sys]; [Os], [OS] of [os];
    [Arch], [ARCH] of [arch]; [Osarch], [OSarch] of [osarch]. *)
Theorem generate_info_case_forms
    (pv sys arch : string) (kwargs : gmap string value) :
  is_version (VStr pv) = Ok true →
  sys ∈ ["windows"; "linux"; "freebsd"; "macos"] →
  arch ∈ ["i686"; "x86_64"; "ARMv8"; "ARMv7"] →
  binds_parameter kwargs = false →
  ∃ m s_sys s_os s_arch s_osarch,
    generate_info pv sys arch kwargs = Ok m
    ∧ m !! "system" = Some (VStr sys)
    ∧ m !! "System" = Some (VStr (py_capitalize sys))
    ∧ m !! "SYSTEM" = Some (VStr (py_upper sys))
    ∧ m !! "sys" = Some (VStr s_sys)
    ∧ m !! "Sys" = Some (VStr (py_capitalize s_sys))
    ∧ m !! "SYS" = Some (VStr (py_upper s_sys))
    ∧ m !! "os" = Some (VStr s_os)
    ∧ m !! "Os" = Some (VStr (py_capitalize s_os))
    ∧ m !! "OS" = Some (VStr (py_upper s_os))
    ∧ m !! "architecture" = Some (VStr arch)
    ∧ m !! "arch" = Some (VStr s_arch)
    ∧ m !! "Arch" = Some (VStr (py_capitalize s_arch))
    ∧ m !! "ARCH" = Some (VStr (py_upper s_arch))
    ∧ m !! "osarch" = Some (VStr s_osarch)
    ∧ m !! "Osarch" = Some (VStr (py_capitalize s_osarch))
    ∧ m !! "OSarch" = Some (VStr (py_upper s_osarch)).
Proof.
  intros Hv Hs Ha Hk.
  destruct (generate_info_platform pv sys arch kwargs Hv Hs Ha Hk)
    as (m & m1 & E & E1 & HF).
  exists m. each_value Hs; each_value Ha;
    read_platform PLATFORM_FIELDS E1 HF;
    eexists _, _, _, _; (split; [exact E|]);
    repeat split; eassumption.
Qed.

Lemma generate_info_case_forms_witness :
  is_version (VStr "v1.2.3") = Ok true
  ∧ "windows" ∈ ["windows"; "linux"; "freebsd"; "macos"]
  ∧ "ARMv8" ∈ ["i686"; "x86_64"; "ARMv8"; "ARMv7"]
  ∧ binds_parameter ∅ = false
  ∧ ∃ m s_sys s_os s_arch s_osarch,
      generate_info "v1.2.3" "windows" "ARMv8" ∅ = Ok m
      ∧ m !! "system" = Some (VStr "windows")
      ∧ m !! "System" = Some (VStr (py_capitalize "windows"))
      ∧ m !! "SYSTEM" = Some (VStr (py_upper "windows"))
      ∧ m !! "sys" = Some (VStr s_sys)
      ∧ m !! "Sys" = Some (VStr (py_capitalize s_sys))
      ∧ m !! "SYS" = Some (VStr (py_upper s_sys))
      ∧ m !! "os" = Some (VStr s_os)
      ∧ m !! "Os" = Some (VStr (py_capitalize s_os))
      ∧ m !! "OS" = Some (VStr (py_upper s_os))
      ∧ m !! "architecture" = Some (VStr "ARMv8")
      ∧ m !! "arch" = Some (VStr s_arch)
      ∧ m !! "Arch" = Some (VStr (py_capitalize s_arch))
      ∧ m !! "ARCH" = Some (VStr (py_upper s_arch))
      ∧ m !! "osarch" = Some (VStr s_osarch)
      ∧ m !! "Osarch" = Some (VStr (py_capitalize s_osarch))
      ∧ m !! "OSarch" = Some (VStr (py_upper s_osarch)).
Proof.
  repeat (split; [first [reflexivity | solve_decide]|]).
  apply (generate_info_case_forms "v1.2.3" "windows" "ARMv8" ∅);
    first [reflexivity | solve_decide].
Defined.

(** X12.  In the result, [sys] is "winnt" and [os] is "win" for windows and
    the system name itself otherwise; [extension] is "exe" for windows,
    "dmg" for macos and "tar.gz" otherwise; [osarch] is the special bundle
    name on the five platforms of the table and [os], "-" and the long
    architecture name everywhere else. *)
Theorem generate_info_platform_names
    (pv sys arch : string) (kwargs : gmap string value) :
  is_version (VStr pv) = Ok true →
  sys ∈ ["windows"; "linux"; "freebsd"; "macos"] →
  arch ∈ ["i686"; "x86_64"; "ARMv8"; "ARMv7"] →
  binds_parameter kwargs = false →
  ∃ m os osarch,
    generate_info pv sys arch kwargs = Ok m
    ∧ m !! "sys" = Some (VStr (if bool_decide (sys = "windows") then "winnt" else sys))
    ∧ os = (if bool_decide (sys = "windows") then "win" else sys)
    ∧ m !! "os" = Some (VStr os)
    ∧ m !! "extension"
      = Some (VStr (if bool_decide (sys = "windows") then "exe"
                    else if bool_decide (sys = "macos") then "dmg" else "tar.gz"))
    ∧ m !! "osarch" = Some (VStr osarch)
    ∧ ((sys, arch, osarch)
         ∈ [("windows", "i686", "win32"); ("windows", "x86_64", "win64");
            ("macos", "x86_64", "mac64"); ("linux", "ARMv7", "linux-armv7l");
            ("linux", "ARMv8", "linux-aarch64")]
       ∨ (((sys, arch) ∉ [("windows", "i686"); ("windows", "x86_64");
                          ("macos", "x86_64"); ("linux", "ARMv7");
                          ("linux", "ARMv8")])
          ∧ osarch = os +:+ "-" +:+ arch)).
Proof.
  intros Hv Hs Ha Hk.
  destruct (generate_info_platform pv sys arch kwargs Hv Hs Ha Hk)
    as (m & m1 & E & E1 & HF).
  exists m. each_value Hs; each_value Ha;
    read_platform ["sys"; "os"; "extension"; "osarch"] E1 HF;
    eexists _, _; (split; [exact E|]);
    (split; [eassumption|]); (split; [reflexivity|]);
    (split; [eassumption|]); (split; [eassumption|]); (split; [eassumption|]);
    first [left; solve_decide | right; split; [solve_decide | reflexivity]].
Qed.

Lemma generate_info_platform_names_witness :
  is_version (VStr "stable") = Ok true
  ∧ "freebsd" ∈ ["windows"; "linux"; "freebsd"; "macos"]
  ∧ "x86_64" ∈ ["i686"; "x86_64"; "ARMv8"; "ARMv7"]
  ∧ binds_parameter ∅ = false
  ∧ ∃ m os osarch,
      generate_info "stable" "freebsd" "x86_64" ∅ = Ok m
      ∧ m !! "sys"
        = Some (VStr (if bool_decide ("freebsd" = "windows") then "winnt" else "freebsd"))
      ∧ os = (if bool_decide ("freebsd" = "windows") then "win" else "freebsd")
      ∧ m !! "os" = Some (VStr os)
      ∧ m !! "extension"
        = Some (VStr (if bool_decide ("freebsd" = "windows") then "exe"
                      else if bool_decide ("freebsd" = "macos") then "dmg"
                           else "tar.gz"))
      ∧ m !! "osarch" = Some (VStr osarch)
      ∧ (("freebsd", "x86_64", osarch)
           ∈ [("windows", "i686", "win32"); ("windows", "x86_64", "win64");
              ("macos", "x86_64", "mac64"); ("linux", "ARMv7", "linux-armv7l");
              ("linux", "ARMv8", "linux-aarch64")]
         ∨ ((("freebsd", "x86_64") ∉ [("windows", "i686"); ("windows", "x86_64");
                                      ("macos", "x86_64"); ("linux", "ARMv7");
                                      ("linux", "ARMv8")])
            ∧ osarch = os +:+ "-" +:+ "x86_64")).
Proof.
  repeat (split; [first [reflexivity | solve_decide]|]).
  apply (generate_info_platform_names "stable" "freebsd" "x86_64" ∅);
    first [reflexivity | solve_decide].
Defined.

(** X13.  In the result, [architecture], [arch] and [bit] form one of the
    four rows i686/x86/32, x86_64/x64/64, ARMv8/aarch64/64,
    ARMv7/armv7l/32; [bit] is an integer, never the fallback string. *)
Theorem generate_info_architecture_row
    (pv sys arch : string) (kwargs : gmap string value) :
  is_version (VStr pv) = Ok true →
  sys ∈ ["windows"; "linux"; "freebsd"; "macos"] →
  arch ∈ ["i686"; "x86_64"; "ARMv8"; "ARMv7"] →
  binds_parameter kwargs = false →
  ∃ m short bit,
    generate_info pv sys arch kwargs = Ok m
    ∧ m !! "architecture" = Some (VStr arch)
    ∧ m !! "arch" = Some (VStr short)
    ∧ m !! "bit" = Some (VInt bit)
    ∧ (arch, short, bit) ∈ [("i686", "x86", 32%Z); ("x86_64", "x64", 64%Z);
                            ("ARMv8", "aarch64", 64%Z); ("ARMv7", "armv7l", 32%Z)].
Proof.
  intros Hv Hs Ha Hk.
  destruct (generate_info_platform pv sys arch kwargs Hv Hs Ha Hk)
    as (m & m1 & E & E1 & HF).
  exists m. each_value Hs; each_value Ha;
    read_platform ["architecture"; "arch"; "bit"] E1 HF;
    eexists _, _; (split; [exact E|]);
    (split; [eassumption|]); (split; [eassumption|]); (split; [eassumption|]);
    solve_decide.
Qed.

Lemma generate_info_architecture_row_witness :
  is_version (VStr "v1.2.3") = Ok true
  ∧ "linux" ∈ ["windows"; "linux"; "freebsd"; "macos"]
  ∧ "ARMv7" ∈ ["i686"; "x86_64"; "ARMv8"; "ARMv7"]
  ∧ binds_parameter ∅ = false
  ∧ ∃ m short bit,
      generate_info "v1.2.3" "linux" "ARMv7" ∅ = Ok m
      ∧ m !! "architecture" = Some (VStr "ARMv7")
      ∧ m !! "arch" = Some (VStr short)
      ∧ m !! "bit" = Some (VInt bit)
      ∧ ("ARMv7", short, bit) ∈ [("i686", "x86", 32%Z); ("x86_64", "x64", 64%Z);
                                 ("ARMv8", "aarch64", 64%Z);
                                 ("ARMv7", "armv7l", 32%Z)].
Proof.
  repeat (split; [first [reflexivity | solve_decide]|]).
  apply (generate_info_architecture_row "v1.2.3" "linux" "ARMv7" ∅);
    first [reflexivity | solve_decide].
Defined.

(** X14.  Every derived field of the result is a string, except [bit],
    which is the integer 32 or 64. *)
Theorem generate_info_field_types
    (pv sys arch : string) (kwargs : gmap string value) :
  is_version (VStr pv) = Ok true →
  sys ∈ ["windows"; "linux"; "freebsd"; "macos"] →
  arch ∈ ["i686"; "x86_64"; "ARMv8"; "ARMv7"] →
  binds_parameter kwargs = false →
  ∃ m, generate_info pv sys arch kwargs = Ok m
       ∧ (∀ k, k ∈ DERIVED_FIELDS → k ≠ "bit" → ∃ s, m !! k = Some (VStr s))
       ∧ (m !! "bit" = Some (VInt 32) ∨ m !! "bit" = Some (VInt 64)).
Proof.
  intros Hv Hs Ha Hk.
  destruct (generate_info_platform pv sys arch kwargs Hv Hs Ha Hk)
    as (m & m1 & E & E1 & HF).
  destruct (generate_info_version_lookups pv sys arch kwargs Hv Hs Ha Hk)
    as (n & En & L0 & L1 & L2 & L3 & L4 & L5 & L6).
  assert (n = m) as -> by congruence.
  exists m. split; [exact E|].
  assert (Hplat : (∀ k, k ∈ PLATFORM_FIELDS → k ≠ "bit" → ∃ s, m !! k = Some (VStr s))
                  ∧ (m !! "bit" = Some (VInt 32) ∨ m !! "bit" = Some (VInt 64))).
  { each_value Hs; each_value Ha; read_platform PLATFORM_FIELDS E1 HF;
      (split; [|first [left; assumption | right; assumption]]);
      intros k Hin Hbit; unfold PLATFORM_FIELDS in Hin;
      rewrite !elem_of_cons, elem_of_nil in Hin;
      repeat (destruct Hin as [->|Hin];
              [first [eexists; eassumption | exfalso; apply Hbit; reflexivity]|]);
      destruct Hin. }
  destruct Hplat as [Hplat Hbit]. split; [|exact Hbit].
  intros k Hin Hne.
  change DERIVED_FIELDS with
    (PLATFORM_FIELDS ++ ["version"; "major_version"; "vmajor_version"; "minor_version";
                         "vminor_version"; "patch_version"; "vpatch_version"])%list in Hin.
  apply elem_of_app in Hin as [Hin|Hin]; [now apply Hplat|].
  rewrite !elem_of_cons, elem_of_nil in Hin.
  destruct Hin as [->|[->|[->|[->|[->|[->|[->|[]]]]]]]]; eauto.
Qed.

Lemma generate_info_field_types_witness :
  is_version (VStr "v1.2.3") = Ok true
  ∧ "macos" ∈ ["windows"; "linux"; "freebsd"; "macos"]
  ∧ "x86_64" ∈ ["i686"; "x86_64"; "ARMv8"; "ARMv7"]
  ∧ binds_parameter ∅ = false
  ∧ ∃ m, generate_info "v1.2.3" "macos" "x86_64" ∅ = Ok m
         ∧ (∀ k, k ∈ DERIVED_FIELDS → k ≠ "bit" → ∃ s, m !! k = Some (VStr s))
         ∧ (m !! "bit" = Some (VInt 32) ∨ m !! "bit" = Some (VInt 64)).
Proof.
  repeat (split; [first [reflexivity | solve_decide]|]).
  apply (generate_info_field_types "v1.2.3" "macos" "x86_64" ∅);
    first [reflexivity | solve_decide].
Defined.

(** ** Release compatibility, by platform *)

(** X15.  For the version "latest" exactly five releases are valid:
    windows and linux on i686 and x86_64, and macos on x86_64; every other
    pair of strings, freebsd included, is rejected. *)
Theorem is_valid_release_latest (system architecture : string) :
  is_valid_release (VStr "latest") (VStr system) (VStr architecture) = true
  ↔ (system, architecture)
      ∈ [("windows", "i686"); ("windows", "x86_64"); ("macos", "x86_64");
         ("linux", "i686"); ("linux", "x86_64")].
Proof.
  rewrite is_valid_release_str.
  rewrite (bool_decide_eq_true_2 ("latest" = "latest") eq_refl). split.
  - destruct (decide (architecture ∈ ["i686"; "x86_64"])) as [Ha|Ha];
      destruct (decide (system ∈ ["windows"; "macos"; "linux"])) as [Hs|Hs].
    + rewrite !elem_of_cons, elem_of_nil in Ha.
      rewrite !elem_of_cons, elem_of_nil in Hs.
      destruct Ha as [->|[->|[]]]; destruct Hs as [->|[->|[->|[]]]];
        intros H; first [solve_decide | vm_compute in H; discriminate H].
    + rewrite (bool_decide_eq_false_2 _ Hs).
      repeat match goal with |- context [bool_decide ?P] => destruct (bool_decide P) end;
        cbn; intros H; discriminate H.
    + rewrite (bool_decide_eq_false_2 _ Ha).
      repeat match goal with |- context [bool_decide ?P] => destruct (bool_decide P) end;
        cbn; intros H; discriminate H.
    + rewrite (bool_decide_eq_false_2 _ Ha).
      repeat match goal with |- context [bool_decide ?P] => destruct (bool_decide P) end;
        cbn; intros H; discriminate H.
  - rewrite !elem_of_cons, elem_of_nil.
    intros [[= -> ->]|[[= -> ->]|[[= -> ->]|[[= -> ->]|[[= -> ->]|[]]]]]];
      vm_compute; reflexivity.
Qed.

(** X16.  For any version other than "latest", among the documented
    systems and architectures exactly eight releases are valid: windows on
    i686 and x86_64, macos and freebsd on x86_64, and linux on all four. *)
Theorem is_valid_release_matrix (version system architecture : string) :
  version ≠ "latest" →
  system ∈ ["windows"; "linux"; "freebsd"; "macos"] →
  architecture ∈ ["i686"; "x86_64"; "ARMv8"; "ARMv7"] →
  (is_valid_release (VStr version) (VStr system) (VStr architecture) = true
   ↔ (system, architecture)
       ∈ [("windows", "i686"); ("windows", "x86_64"); ("macos", "x86_64");
          ("freebsd", "x86_64"); ("linux", "i686"); ("linux", "x86_64");
          ("linux", "ARMv8"); ("linux", "ARMv7")]).
Proof.
  intros Hv Hs Ha. rewrite is_valid_release_str, (bool_decide_eq_false_2 _ Hv).
  each_value Hs; each_value Ha; split; intros H;
    first [solve_decide | vm_compute; reflexivity | vm_compute in H; discriminate H
          | exfalso; revert H; solve_decide].
Qed.

Lemma is_valid_release_matrix_witness :
  "v1.6.0" ≠ "latest"
  ∧ "freebsd" ∈ ["windows"; "linux"; "freebsd"; "macos"]
  ∧ "ARMv8" ∈ ["i686"; "x86_64"; "ARMv8"; "ARMv7"]
  ∧ (is_valid_release (VStr "v1.6.0") (VStr "freebsd") (VStr "ARMv8") = true
     ↔ ("freebsd", "ARMv8")
         ∈ [("windows", "i686"); ("windows", "x86_64"); ("macos", "x86_64");
            ("freebsd", "x86_64"); ("linux", "i686"); ("linux", "x86_64");
            ("linux", "ARMv8"); ("linux", "ARMv7")]).
Proof.
  repeat (split; [solve_decide|]).
  apply (is_valid_release_matrix "v1.6.0" "freebsd" "ARMv8"); solve_decide.
Defined.

(** X17.  "latest" is the most restrictive version: a system and
    architecture valid for "latest" are valid for every version. *)
Theorem is_valid_release_latest_strictest (version system architecture : string) :
  is_valid_release (VStr "latest") (VStr system) (VStr architecture) = true →
  is_valid_release (VStr version) (VStr system) (VStr architecture) = true.
Proof.
  rewrite !is_valid_release_str.
  rewrite (bool_decide_eq_true_2 ("latest" = "latest") eq_refl).
  repeat match goal with |- context [bool_decide ?P] => destruct (bool_decide P) end;
    cbn; trivial.
Qed.

Lemma is_valid_release_latest_strictest_witness :
  is_valid_release (VStr "latest") (VStr "linux") (VStr "i686") = true
  ∧ is_valid_release (VStr "v0.7.0") (VStr "linux") (VStr "i686") = true.
Proof.
  split; [reflexivity|].
  apply (is_valid_release_latest_strictest "v0.7.0" "linux" "i686"). reflexivity.
Defined.
